(** * Host side of the PRU485 character device (uio_pruss.c)

    A shallow embedding of the character-device half of the driver: the
    interrupt handler [pruss_handler], the file operations [dev_open],
    [dev_release], [dev_read], [dev_write], [dev_unlocked_ioctl] and the
    helpers they call, followed by the properties of the protocol that the
    specification states about them.

    Conventions.
    - The driver targets 32-bit ARM parts (AM335x, DA850): [int],
      [unsigned int], [unsigned long] and [size_t] are 32 bits wide.  They
      are carried as [Z] and every wrap-around is written out ([u32], [u8],
      [ssize_of]).
    - The file only builds with PRUSS_CHAR_DEVICE defined ([pruss_probe]
      and [dev_open] use [_pdev] and [intr_completion] unconditionally), so
      the guarded code is part of the model.
    - A pointer into the PRUSS I/O mapping is the byte offset from the base
      that [ioremap] returned; every [ioremap] of the resource maps the same
      device bytes, so [ioremap(...)] is offset 0. *)

From Stdlib Require Import ZArith List Bool Lia.
Import ListNotations.
Local Open Scope Z_scope.

(** ** Machine integers *)

Definition u8 (z : Z) : Z := Z.land z 0xff.
Definition u32 (z : Z) : Z := z mod 2 ^ 32.

(** Conversion of a [size_t] to the [ssize_t] a file operation returns. *)
Definition ssize_of (z : Z) : Z :=
  let r := u32 z in if r <? 2 ^ 31 then r else r - 2 ^ 32.

(** A C truth value used as an [int]. *)
Definition int_of_bool (b : bool) : Z := if b then 1 else 0.

(** ** Constants of the driver *)

Definition MAX_PRUSS_EVT : Z := 8.

Definition PINTC_HIDISR : Z := 0x0038.
Definition PINTC_HIPIR : Z := 0x0900.
Definition HIPIR_NOPEND : Z := 0x80000000.
Definition PINTC_HIER : Z := 0x1500.

Definition PRU_EVTOUT : Z := 3.

Definition PRUSS_SHAREDRAM_BASE : Z := 0x10000.

Definition PINTC_HIEISR : Z := 0x0034.
Definition PRU_INTC_SECR1_REG : Z := 0x280.
Definition PRU_ARM_INTERRUPT : Z := 20.

Definition SZ_12K : Z := 0x3000.

Definition OLD_MESSAGE : Z := 0x55.
Definition NEW_RECEIVED_MESSAGE : Z := 0x00.
Definition MESSAGE_TO_SEND : Z := 0xff.

Definition GPIO_P8_31 : Z := 10.
Definition GPIO_P8_32 : Z := 11.
Definition GPIO_P8_33 : Z := 9.
Definition GPIO_P8_34 : Z := 81.
Definition GPIO_P8_35 : Z := 8.

(** [enum ioctl_cmd] *)
Definition PRUSS_CLEAN : Z := 10.
Definition PRUSS_MODE : Z := 11.
Definition PRUSS_SYNC_STEP : Z := 12.
Definition PRUSS_SET_COUNTER : Z := 13.
Definition PRUSS_GET_HW_ADDRESS : Z := 14.
Definition PRUSS_BAUDRATE : Z := 15.
Definition PRUSS_TIMEOUT : Z := 16.

(** [enum offset] *)
Definition STATUS_OFFSET : Z := 1.
Definition BAUD_BRGCONFIG_OFFSET : Z := 2.
Definition BAUD_LSB_OFFSET : Z := 3.
Definition BAUD_MSB_OFFSET : Z := 4.
Definition TIMEOUT_OFFSET : Z := 6.
Definition HW_ADDR_OFFSET : Z := 24.
Definition MODE_OFFSET : Z := 25.
Definition BAUD_LENGTH_OFFSET : Z := 26.
Definition SYNC_STEP_OFFSET : Z := 50.
Definition MODE_COUNTER_OFFSET : Z := 80.
Definition SHRAM_WRITE_OFFSET : Z := 0x64.
Definition SHRAM_READ_OFFSET : Z := 0x1800.

(** Character codes of the two modes. *)
Definition CHAR_M : Z := 77.
Definition CHAR_S : Z := 83.

(** Kernel errno values (asm-generic/errno-base.h). *)
Definition EFAULT : Z := 14.
Definition EBUSY : Z := 16.
Definition EINVAL : Z := 22.

(** [irqreturn_t] *)
Inductive irqreturn_t : Type := IRQ_NONE | IRQ_HANDLED.

(** ** The memory-mapped I/O region

    The region is a map from byte offsets to bytes.  No access is checked
    against the length of the mapping, as in the source. *)

Definition iomem : Type := Z -> Z.

Definition ioread8 (m : iomem) (addr : Z) : Z := u8 (m addr).

Definition iowrite8 (value addr : Z) (m : iomem) : iomem :=
  fun a => if a =? addr then u8 value else m a.

(** 16- and 32-bit accessors are little-endian. *)
Definition iowrite16 (value addr : Z) (m : iomem) : iomem :=
  iowrite8 (Z.shiftr value 8) (addr + 1) (iowrite8 value addr m).

Definition iowrite32 (value addr : Z) (m : iomem) : iomem :=
  iowrite8 (Z.shiftr value 24) (addr + 3)
    (iowrite8 (Z.shiftr value 16) (addr + 2)
       (iowrite8 (Z.shiftr value 8) (addr + 1)
          (iowrite8 value addr m))).

Definition ioread32 (m : iomem) (addr : Z) : Z :=
  Z.lor (ioread8 m addr)
    (Z.lor (Z.shiftl (ioread8 m (addr + 1)) 8)
       (Z.lor (Z.shiftl (ioread8 m (addr + 2)) 16)
          (Z.shiftl (ioread8 m (addr + 3)) 24))).

(** [for (count = 0; count < n; count++) body(count)] over a state. *)
Fixpoint for_upto {St : Type} (n : nat) (body : Z -> St -> St) (s : St) : St :=
  match n with
  | O => s
  | S k => body (Z.of_nat k) (for_upto k body s)
  end.

(** ** Helpers of the control commands *)

Definition __dev_set_sync_counter (_prussio_vaddr sync_counter : Z)
    (m : iomem) : Z * iomem :=
  (0, iowrite16 sync_counter (_prussio_vaddr + MODE_COUNTER_OFFSET) m).

(** The [switch] of [__dev_config_baudrate]: the values assigned to
    [brgconfig], [div_lsb], [div_msb] and [one_byte_length_ns], or [None]
    for the [default] label. *)
Definition baudrate_switch (baudrate : Z) : option (Z * Z * Z * Z) :=
  match baudrate with
  | 6 => Some (0x28, 0x02, 0, 1667)
  | 10 => Some (0x28, 0x01, 0, 1000)
  | 12 => Some (0x24, 0x01, 0, 833)
  | 9600 => Some (0x0a, 0x86, 0x01, 1041666)
  | 14400 => Some (0x07, 0x04, 0x01, 694444)
  | 19200 => Some (0x05, 0xc3, 0x00, 694444)
  | 38400 => Some (0x15, 0xc3, 0x00, 260416)
  | 57600 => Some (0x27, 0x04, 0x01, 173611)
  | 115200 => Some (0x09, 0x20, 0x00, 86805)
  | _ => None
  end.

Definition __dev_config_baudrate (_prussio_vaddr baudrate : Z)
    (m : iomem) : Z * iomem :=
  match baudrate_switch baudrate with
  | None => (- EINVAL, m)
  | Some (brgconfig, div_lsb, div_msb, one_byte_length_ns) =>
    let m := iowrite8 brgconfig (_prussio_vaddr + BAUD_BRGCONFIG_OFFSET) m in
    let m := iowrite8 div_lsb (_prussio_vaddr + BAUD_LSB_OFFSET) m in
    let m := iowrite8 div_msb (_prussio_vaddr + BAUD_MSB_OFFSET) m in
    let m := iowrite8 (Z.land one_byte_length_ns 0xff)
               (_prussio_vaddr + BAUD_LENGTH_OFFSET) m in
    let m := iowrite8 (Z.land (Z.shiftr one_byte_length_ns 8) 0xff)
               (_prussio_vaddr + BAUD_LENGTH_OFFSET + 1) m in
    let m := iowrite8 (Z.land (Z.shiftr one_byte_length_ns 16) 0xff)
               (_prussio_vaddr + BAUD_LENGTH_OFFSET + 2) m in
    (0, m)
  end.

Definition __dev_clean_sram (_prussio_vaddr : Z) (m : iomem) : Z * iomem :=
  (0, for_upto 100 (fun count m => iowrite8 0 (_prussio_vaddr + count) m) m).

Definition __dev_set_sync_stop (_prussio_vaddr : Z) (m : iomem) : Z * iomem :=
  if negb (ioread8 m (_prussio_vaddr + MODE_OFFSET) =? CHAR_M)
  then (- EINVAL, m)
  else (0, iowrite8 0 (_prussio_vaddr + 5) m).

Definition __dev_set_sync_step (_prussio_vaddr : Z) (m : iomem) : Z * iomem :=
  let m := iowrite8 0x06 (_prussio_vaddr + SYNC_STEP_OFFSET) m in
  let m := iowrite8 0xff (_prussio_vaddr + SYNC_STEP_OFFSET + 1) m in
  let m := iowrite8 0x50 (_prussio_vaddr + SYNC_STEP_OFFSET + 2) m in
  let m := iowrite8 0x00 (_prussio_vaddr + SYNC_STEP_OFFSET + 3) m in
  let m := iowrite8 0x01 (_prussio_vaddr + SYNC_STEP_OFFSET + 4) m in
  let m := iowrite8 0x0c (_prussio_vaddr + SYNC_STEP_OFFSET + 5) m in
  let m := iowrite8 0xa4 (_prussio_vaddr + SYNC_STEP_OFFSET + 6) m in
  (0, m).

(** [__dev_get_hw_addr]: [pins id] is the level [gpio_get_value(id)]
    samples; requesting and freeing the pins leaves no state behind. *)
Definition __dev_get_hw_addr (pins : Z -> bool) : Z :=
  let addr := 0 in
  let addr := if pins GPIO_P8_31 then Z.lor addr 1 else addr in
  let addr := if pins GPIO_P8_32 then Z.lor addr 2 else addr in
  let addr := if pins GPIO_P8_33 then Z.lor addr 4 else addr in
  let addr := if pins GPIO_P8_34 then Z.lor addr 8 else addr in
  let addr := if pins GPIO_P8_35 then Z.lor addr 16 else addr in
  addr.

(** ** Driver and kernel state *)

(** The fields of [struct uio_pruss_dev] that the character device and the
    interrupt handler read. *)
Record uio_pruss_dev : Type := mk_uio_pruss_dev {
  hostirq_start : Z;
  pintc_base : Z
}.

(** One access of [dev_write] to the device, in program order. *)
Inductive mmio_step : Type :=
| Rd8 (addr value : Z)      (* ioread8(addr) returned value *)
| Wr8 (value addr : Z)      (* iowrite8(value, addr) *)
| Wr32 (value addr : Z)     (* iowrite32(value, addr) *)
| Woken.                    (* wait_for_completion(&intr_completion) returned *)

Record world : Type := mk_world {
  _pdev : option (option uio_pruss_dev);
      (* [_pdev], and the driver data [platform_get_drvdata(_pdev)] *)
  io : iomem;                   (* bytes of the PRUSS I/O resource *)
  intr_completion : nat;        (* [intr_completion.done] *)
  pruchar_mutex : bool;         (* [true] when locked *)
  message : list Z;             (* [static u8 message[SZ_12K]] *)
  user : Z -> Z;                (* bytes of the caller's address space *)
  user_ok : Z -> bool;          (* addresses the caller may write *)
  pins : Z -> bool;             (* levels of the GPIO inputs *)
  wlog : list mmio_step;        (* device accesses made by [dev_write] *)
  now : nat                     (* ticks of the coprocessor elapsed *)
}.

Definition set_io (f : iomem) (w : world) : world :=
  mk_world (_pdev w) f (intr_completion w) (pruchar_mutex w) (message w)
           (user w) (user_ok w) (pins w) (wlog w) (now w).

Definition set_completion (d : nat) (w : world) : world :=
  mk_world (_pdev w) (io w) d (pruchar_mutex w) (message w)
           (user w) (user_ok w) (pins w) (wlog w) (now w).

Definition set_mutex (b : bool) (w : world) : world :=
  mk_world (_pdev w) (io w) (intr_completion w) b (message w)
           (user w) (user_ok w) (pins w) (wlog w) (now w).

Definition set_message (l : list Z) (w : world) : world :=
  mk_world (_pdev w) (io w) (intr_completion w) (pruchar_mutex w) l
           (user w) (user_ok w) (pins w) (wlog w) (now w).

Definition set_user (u : Z -> Z) (w : world) : world :=
  mk_world (_pdev w) (io w) (intr_completion w) (pruchar_mutex w) (message w)
           u (user_ok w) (pins w) (wlog w) (now w).

Definition set_wlog (l : list mmio_step) (w : world) : world :=
  mk_world (_pdev w) (io w) (intr_completion w) (pruchar_mutex w) (message w)
           (user w) (user_ok w) (pins w) l (now w).

Definition add_log (e : mmio_step) (w : world) : world :=
  set_wlog (wlog w ++ [e]) w.

Definition set_now (t : nat) (w : world) : world :=
  mk_world (_pdev w) (io w) (intr_completion w) (pruchar_mutex w) (message w)
           (user w) (user_ok w) (pins w) (wlog w) t.

(** Kernel primitives on [struct completion]. *)
Definition init_completion (w : world) : world := set_completion 0%nat w.
Definition complete (w : world) : world :=
  set_completion (S (intr_completion w)) w.

(** [arr[i] = v] on an array held as a list. *)
Fixpoint array_set (i : nat) (v : Z) (arr : list Z) : list Z :=
  match arr, i with
  | [], _ => []
  | _ :: rest, O => v :: rest
  | x :: rest, S j => x :: array_set j v rest
  end.

(** [access_ok(to, n)]: the caller may write the [n] bytes from [to]. *)
Definition access_ok (ok : Z -> bool) (to n : Z) : bool :=
  forallb (fun i => ok (to + Z.of_nat i)) (seq 0 (Z.to_nat n)).

(** The bytes of [from] stored from address [to] on. *)
Fixpoint store_bytes (to : Z) (from : list Z) (u : Z -> Z) : Z -> Z :=
  match from with
  | [] => u
  | b :: rest => store_bytes (to + 1) rest (fun a => if a =? to then b else u a)
  end.

(** [copy_to_user(to, from, n)] returns the number of bytes left uncopied,
    0 on success.  The whole destination is checked first ([access_ok]) and
    nothing is stored when the check fails.  The check is the only way for
    a copy to fail here: a fault behind a check that passed, of which the
    kernel promises no more than a count that is not 0, is left out. *)
Definition copy_to_user (to : Z) (from : list Z) (n : Z) (w : world)
  : Z * world :=
  if access_ok (user_ok w) to n
  then (0, set_user (store_bytes to (firstn (Z.to_nat n) from) (user w)) w)
  else (n, w).

(** ** Interrupt handler *)

(** [pruss_handler(irq, info)] with [info->priv == gdev].  The handler is
    registered for the lines [hostirq_start .. hostirq_start + 7] only, where
    [intr_bit] is between 2 and 9 and no [int] operation wraps. *)
Definition pruss_handler (irq : Z) (gdev : uio_pruss_dev) (w : world)
  : irqreturn_t * world :=
  let intr_bit := irq - hostirq_start gdev + 2 in
  let intr_mask := Z.shiftl 1 intr_bit in
  let base := 0 + pintc_base gdev in
  let intren_reg := base + PINTC_HIER in
  let intrdis_reg := base + PINTC_HIDISR in
  let intrstat_reg := base + PINTC_HIPIR + Z.shiftl intr_bit 2 in
  let val := ioread32 (io w) intren_reg in
  if negb (negb (Z.land val intr_mask =? 0))
     && negb (Z.land (ioread32 (io w) intrstat_reg) HIPIR_NOPEND =? 0)
  then (IRQ_NONE, w)
  else
    let w := if intr_bit =? PRU_EVTOUT then complete w else w in
    let w := set_io (iowrite32 intr_bit intrdis_reg (io w)) w in
    (IRQ_HANDLED, w).

(** ** Session: open and release *)

Definition dev_open (w : world) : Z * world :=
  if pruchar_mutex w                       (* !mutex_trylock(&pruchar_mutex) *)
  then (- EBUSY, w)
  else (0, init_completion (set_mutex true w)).

Definition dev_release (w : world) : Z * world :=
  (0, set_mutex false w).

(** ** Read *)

Definition dev_read (buffer len offset : Z) (w : world) : Z * world :=
  match _pdev w with
  | Some (Some gdev) =>
    let p := 0 + PRUSS_SHAREDRAM_BASE in
    let w := for_upto (Z.to_nat SZ_12K)
               (fun count w =>
                  set_message
                    (array_set (Z.to_nat count) (ioread8 (io w) (p + count))
                               (message w)) w) w in
    let count := SZ_12K in
    let r := copy_to_user buffer (message w) count w in
    if negb (fst r =? 0) then (- EFAULT, snd r) else (0, snd r)
  | _ => (- EINVAL, w)
  end.

(** ** Control commands *)

Definition dev_unlocked_ioctl (cmd arg : Z) (w : world) : Z * world :=
  match _pdev w with
  | None => (- EINVAL, w)
  | Some None => (- EFAULT, w)
  | Some (Some gdev) =>
    let p := 0 + PRUSS_SHAREDRAM_BASE in
    let on_io (r : Z * iomem) : Z * world := (fst r, set_io (snd r) w) in
    if cmd =? PRUSS_MODE then
      if (arg =? CHAR_M) || (arg =? CHAR_S) then
        let m := iowrite8 arg (p + MODE_OFFSET) (io w) in
        let m := snd (__dev_set_sync_stop p m) in
        let m := if arg =? CHAR_S
                 then iowrite8 OLD_MESSAGE (p + STATUS_OFFSET) m else m in
        (0, set_io m w)
      else (- EINVAL, w)
    else if cmd =? PRUSS_BAUDRATE then
      on_io (__dev_config_baudrate p arg (io w))
    else if cmd =? PRUSS_SYNC_STEP then
      on_io (__dev_set_sync_step p (io w))
    else if cmd =? PRUSS_CLEAN then
      on_io (__dev_clean_sram p (io w))
    else if cmd =? PRUSS_SET_COUNTER then
      on_io (__dev_set_sync_counter p arg (io w))
    else if cmd =? PRUSS_GET_HW_ADDRESS then
      let hw_addr := __dev_get_hw_addr (pins w) in
      (0, set_io (iowrite8 hw_addr (p + HW_ADDR_OFFSET) (io w)) w)
    else if cmd =? PRUSS_TIMEOUT then
      let arg := u32 (arg * 66600) in
      let m := iowrite8 (Z.land arg 0xff) (p + TIMEOUT_OFFSET) (io w) in
      let m := iowrite8 (Z.land (int_of_bool (8 <? arg)) 0xff)
                 (p + TIMEOUT_OFFSET + 1) m in
      let m := iowrite8 (Z.land (int_of_bool (16 <? arg)) 0xff)
                 (p + TIMEOUT_OFFSET + 2) m in
      let m := iowrite8 (Z.land (int_of_bool (24 <? arg)) 0xff)
                 (p + TIMEOUT_OFFSET + 3) m in
      (0, set_io m w)
    else (- EINVAL, w)
  end.

(** ** Write

    [dev_write] sleeps on the completion and then spins on the status byte,
    so its outcome depends on what the coprocessor and the interrupt
    controller do meanwhile.  That environment is a schedule: at tick [t]
    the coprocessor rewrites the region with [pru t] and the interrupt line
    [raised t], if any, is delivered to [pruss_handler].  The host's
    straight-line code runs between two ticks; one tick passes for every
    turn of a loop that waits.  Loops that may not end take fuel and yield
    [None] when it runs out. *)

Definition M (A : Type) : Type := world -> option (A * world).

Definition ret {A : Type} (a : A) : M A := fun w => Some (a, w).

Definition bind {A B : Type} (c : M A) (k : A -> M B) : M B :=
  fun w => match c w with
           | Some (a, w') => k a w'
           | None => None
           end.

Notation "x <- c ;; k" := (bind c (fun x => k))
  (at level 61, c at next level, right associativity).
Notation "c ;;; k" := (bind c (fun _ => k))
  (at level 61, right associativity).

Definition rd8 (addr : Z) : M Z :=
  fun w => let v := ioread8 (io w) addr in Some (v, add_log (Rd8 addr v) w).

Definition wr8 (value addr : Z) : M unit :=
  fun w => Some (tt, add_log (Wr8 (u8 value) addr)
                       (set_io (iowrite8 value addr (io w)) w)).

Definition wr32 (value addr : Z) : M unit :=
  fun w => Some (tt, add_log (Wr32 (u32 value) addr)
                       (set_io (iowrite32 value addr (io w)) w)).

(** [buffer[count]]: [dev_write] dereferences the caller's pointer itself. *)
Definition user_byte (addr : Z) : M Z := fun w => Some (user w addr, w).

(** [for (count = 0; count < n; count++) body(count)] in [M]. *)
Fixpoint for_M (n : nat) (body : Z -> M unit) : M unit :=
  match n with
  | O => ret tt
  | S k => for_M k body ;;; body (Z.of_nat k)
  end.

Section Coprocessor.

Variable pru : nat -> iomem -> iomem.
Variable raised : nat -> option Z.

(** One tick of the environment.  [uio_register_device] installed
    [pruss_handler] for [MAX_PRUSS_EVT] lines from [hostirq_start]. *)
Definition tick (w : world) : world :=
  let t := now w in
  let w := set_now (S t) (set_io (pru t (io w)) w) in
  match raised t, _pdev w with
  | Some irq, Some (Some gdev) =>
    if (hostirq_start gdev <=? irq) && (irq <? hostirq_start gdev + MAX_PRUSS_EVT)
    then snd (pruss_handler irq gdev w)
    else w
  | _, _ => w
  end.

(** [wait_for_completion(&intr_completion)]: sleeps while [done] is 0,
    then takes one completion. *)
Fixpoint wait_for_completion (fuel : nat) : M unit :=
  fun w =>
    match fuel with
    | O => None
    | S f =>
      if (0 <? intr_completion w)%nat
      then Some (tt, add_log Woken
                       (set_completion (pred (intr_completion w)) w))
      else wait_for_completion f (tick w)
    end.

(** [while (ioread8(addr) != OLD_MESSAGE);] *)
Fixpoint spin_until_old (fuel : nat) (addr : Z) : M unit :=
  fun w =>
    match fuel with
    | O => None
    | S f =>
      (v <- rd8 addr ;;
       if negb (v =? OLD_MESSAGE)
       then (fun w => spin_until_old f addr (tick w))
       else ret tt) w
    end.

Definition dev_write (fuel : nat) (buffer len offset : Z) : M Z :=
  fun w =>
    match _pdev w with
    | Some (Some gdev) =>
      let base := 0 in
      let p := base + PRUSS_SHAREDRAM_BASE in
      let intrc := base + pintc_base gdev in
      (mode <- rd8 (p + MODE_OFFSET) ;;
       (if mode =? CHAR_M then ret tt else ret tt) ;;;
       wr32 len (p + SHRAM_WRITE_OFFSET) ;;;
       for_M (Z.to_nat len)
         (fun count =>
            b <- user_byte (buffer + count) ;;
            wr8 b (p + SHRAM_WRITE_OFFSET + 4 + count)) ;;;
       wr8 MESSAGE_TO_SEND (p + STATUS_OFFSET) ;;;
       wait_for_completion fuel ;;;
       wr32 (Z.shiftl 1 PRU_ARM_INTERRUPT) (intrc + PRU_INTC_SECR1_REG) ;;;
       wr32 (Z.shiftl 1 PRU_EVTOUT) (intrc + PINTC_HIEISR) ;;;
       mode <- rd8 (p + MODE_OFFSET) ;;
       (if mode =? CHAR_M
        then spin_until_old fuel (p + STATUS_OFFSET)
        else ret tt) ;;;
       ret (ssize_of len)) w
    | Some None => Some (- EFAULT, w)
    | None => Some (- EINVAL, w)
    end.

(** The world after [n] ticks with the host idle. *)
Definition ticks (n : nat) (w : world) : world := Nat.iter n tick w.

(** [n] is the first tick count after which [P] holds. *)
Definition first_after (P : world -> bool) (n : nat) (w : world) : bool :=
  forallb (fun j => negb (P (ticks j w))) (seq 0 n) && P (ticks n w).

End Coprocessor.

Definition completion_pending (w : world) : bool :=
  (0 <? intr_completion w)%nat.

Definition status_is_old (w : world) : bool :=
  ioread8 (io w) (PRUSS_SHAREDRAM_BASE + STATUS_OFFSET) =? OLD_MESSAGE.

(** ** Vocabulary of the specification *)

(** A world in which the platform device is bound to driver data. *)
Definition attached (gdev : uio_pruss_dev) (w : world) : Prop :=
  _pdev w = Some (Some gdev).

(** Baud profile of the data model: [{baud_rate, config_byte, divisor_lsb,
    divisor_msb, byte_time_ns}]. *)
Record BaudProfile : Type := mk_profile {
  baud_rate : Z;
  config_byte : Z;
  divisor_lsb : Z;
  divisor_msb : Z;
  byte_time_ns : Z
}.

(** The baud table, one record per supported rate. *)
Definition baud_table : list BaudProfile :=
  [ mk_profile 6 0x28 0x02 0x00 1667;
    mk_profile 10 0x28 0x01 0x00 1000;
    mk_profile 12 0x24 0x01 0x00 833;
    mk_profile 9600 0x0a 0x86 0x01 1041666;
    mk_profile 14400 0x07 0x04 0x01 694444;
    mk_profile 19200 0x05 0xc3 0x00 694444;
    mk_profile 38400 0x15 0xc3 0x00 260416;
    mk_profile 57600 0x27 0x04 0x01 173611;
    mk_profile 115200 0x09 0x20 0x00 86805 ].

Definition supported_rates : list Z :=
  [6; 10; 12; 9600; 14400; 19200; 38400; 57600; 115200].

Definition profile_of (rate : Z) : option BaudProfile :=
  find (fun pr => baud_rate pr =? rate) baud_table.

(** The six bytes [configure] owns, relative to the shared RAM. *)
Definition baud_offsets : list Z := [2; 3; 4; 26; 27; 28].

(** Byte lane [i] of the timeout field as the specification encodes it:
    [((n * 66600) >> (8 * i)) & 0xff]. *)
Definition spec_timeout_lane (n i : Z) : Z :=
  Z.land (Z.shiftr (n * 66600) (8 * i)) 0xff.

(** The inbound window as the specification places it: [SZ_12K] bytes from
    offset [SHRAM_READ_OFFSET] of the shared RAM. *)
Definition spec_inbound_window (m : iomem) : list Z :=
  map (fun i => ioread8 m (PRUSS_SHAREDRAM_BASE + SHRAM_READ_OFFSET + Z.of_nat i))
      (seq 0 (Z.to_nat SZ_12K)).

(** The bytes [dev_read] samples: [SZ_12K] bytes from the start of the
    shared RAM. *)
Definition shared_ram_snapshot (m : iomem) : list Z :=
  map (fun i => ioread8 m (PRUSS_SHAREDRAM_BASE + Z.of_nat i))
      (seq 0 (Z.to_nat SZ_12K)).

(** [n] successive addresses from [a] are in the range [lo, lo + n). *)
Definition in_range (lo n a : Z) : bool := (lo <=? a) && (a <? lo + n).

(** The message buffer has its declared size. *)
Definition message_sized (w : world) : Prop :=
  length (message w) = Z.to_nat SZ_12K.

(** The caller may write [n] bytes from [buffer]. *)
Definition user_writable (buffer n : Z) (w : world) : Prop :=
  forall i, 0 <= i < n -> user_ok w (buffer + i) = true.

(** Interrupt controller state of event [bit], read through the two register
    blocks the handler inspects: the enable mask [PINTC_HIER], and the
    prioritised-index register of the event, whose top bit says that nothing
    is pending. *)
Definition event_enabled (gdev : uio_pruss_dev) (bit : Z) (m : iomem) : bool :=
  Z.testbit (ioread32 m (pintc_base gdev + PINTC_HIER)) bit.

Definition event_pending (gdev : uio_pruss_dev) (bit : Z) (m : iomem) : bool :=
  negb (Z.testbit (ioread32 m (pintc_base gdev + PINTC_HIPIR + 4 * bit)) 31).

(** *** The write transaction, phase by phase *)

(** Region contents once the frame is posted: length, payload, status. *)
Definition frame_io (buffer len : Z) (w : world) : iomem :=
  iowrite8 MESSAGE_TO_SEND (PRUSS_SHAREDRAM_BASE + STATUS_OFFSET)
    (for_upto (Z.to_nat len)
       (fun count m =>
          iowrite8 (user w (buffer + count))
                   (PRUSS_SHAREDRAM_BASE + SHRAM_WRITE_OFFSET + 4 + count) m)
       (iowrite32 len (PRUSS_SHAREDRAM_BASE + SHRAM_WRITE_OFFSET) (io w))).

(** The world in which [dev_write] starts to wait. *)
Definition frame_posted (buffer len : Z) (w : world) : world :=
  set_io (frame_io buffer len w) w.

(** The device accesses that post the frame. *)
Definition frame_steps (buffer len : Z) (w : world) : list mmio_step :=
  Wr32 len (PRUSS_SHAREDRAM_BASE + SHRAM_WRITE_OFFSET)
  :: map (fun i => Wr8 (u8 (user w (buffer + Z.of_nat i)))
                       (PRUSS_SHAREDRAM_BASE + SHRAM_WRITE_OFFSET + 4 + Z.of_nat i))
         (seq 0 (Z.to_nat len))
  ++ [Wr8 MESSAGE_TO_SEND (PRUSS_SHAREDRAM_BASE + STATUS_OFFSET)].

(** Taking the completion and re-arming the interrupt line. *)
Definition rearm_io (gdev : uio_pruss_dev) (m : iomem) : iomem :=
  iowrite32 (Z.shiftl 1 PRU_EVTOUT) (pintc_base gdev + PINTC_HIEISR)
    (iowrite32 (Z.shiftl 1 PRU_ARM_INTERRUPT)
               (pintc_base gdev + PRU_INTC_SECR1_REG) m).

Definition rearmed (gdev : uio_pruss_dev) (w : world) : world :=
  set_io (rearm_io gdev (io w)) (set_completion (pred (intr_completion w)) w).

Definition rearm_steps (gdev : uio_pruss_dev) : list mmio_step :=
  [ Woken;
    Wr32 (Z.shiftl 1 PRU_ARM_INTERRUPT) (pintc_base gdev + PRU_INTC_SECR1_REG);
    Wr32 (Z.shiftl 1 PRU_EVTOUT) (pintc_base gdev + PINTC_HIEISR) ].

(** The host-interrupt enable register [PINTC_HIER] is driven through two
    indexed registers: a store of [i] in [PINTC_HIDISR] clears its bit [i],
    a store of [i] in [PINTC_HIEISR] sets it.  [pruss_handler] goes by this
    reading: it tests bit [intr_bit] of [PINTC_HIER] and disables the line by
    storing [intr_bit] itself in [PINTC_HIDISR]. *)
Definition hier_step (gdev : uio_pruss_dev) (hier : Z) (s : mmio_step) : Z :=
  match s with
  | Wr32 i addr =>
    if addr =? pintc_base gdev + PINTC_HIEISR then Z.setbit hier i
    else if addr =? pintc_base gdev + PINTC_HIDISR then Z.clearbit hier i
    else hier
  | _ => hier
  end.

Definition hier_after (gdev : uio_pruss_dev) (steps : list mmio_step) (hier : Z)
  : Z :=
  fold_left (hier_step gdev) steps hier.

(** The store by which [pruss_handler] disables the line of event [bit]. *)
Definition disable_step (gdev : uio_pruss_dev) (bit : Z) : mmio_step :=
  Wr32 bit (pintc_base gdev + PINTC_HIDISR).

(** Re-arming as the specification has it: the pending event is cleared and
    the line the handler disabled, [PRU_EVTOUT], is enabled again. *)
Definition spec_rearm_steps (gdev : uio_pruss_dev) : list mmio_step :=
  [ Woken;
    Wr32 (Z.shiftl 1 PRU_ARM_INTERRUPT) (pintc_base gdev + PRU_INTC_SECR1_REG);
    Wr32 PRU_EVTOUT (pintc_base gdev + PINTC_HIEISR) ].

(** ** Concrete worlds used to exercise the statements *)

Definition gdev0 : uio_pruss_dev := mk_uio_pruss_dev 20 0x20000.

Definition world0 (m : iomem) : world :=
  mk_world (Some (Some gdev0)) m 0%nat false (repeat 0 (Z.to_nat SZ_12K))
           (fun a => a mod 251) (fun _ => true) (fun _ => false) [] 0%nat.

(** All zero except the mode byte, which reads ['M']. *)
Definition master_io : iomem :=
  fun a => if a =? PRUSS_SHAREDRAM_BASE + MODE_OFFSET then CHAR_M else 0.

(** The spec's inbound window holds [0xAA], the bytes below it [0]. *)
Definition window_io : iomem :=
  fun a => if a <? PRUSS_SHAREDRAM_BASE + SHRAM_READ_OFFSET then 0 else 0xAA.

(** Event 3 is masked and its index register says nothing is pending. *)
Definition quiet_io : iomem :=
  fun a => if a =? pintc_base gdev0 + PINTC_HIPIR + 4 * 3 + 3 then 0x80 else 0.

(** Every byte reads [1]. *)
Definition ones_io : iomem := fun _ => 1.

(** A coprocessor that retires the message at its third tick, and an
    interrupt controller that raises the second event line at the first. *)
Definition pru0 (t : nat) (m : iomem) : iomem :=
  if (t =? 2)%nat
  then iowrite8 OLD_MESSAGE (PRUSS_SHAREDRAM_BASE + STATUS_OFFSET) m
  else m.

Definition raised0 (t : nat) : option Z :=
  if (t =? 0)%nat then Some (hostirq_start gdev0 + 1) else None.

(** ** Further vocabulary *)

(** The control block: the first 100 bytes of the shared RAM, where every
    field of the control commands lies. *)
Definition in_control_block (a : Z) : bool :=
  in_range PRUSS_SHAREDRAM_BASE 100 a.

(** [w'] differs from [w] at most in the region, the completion count, the
    access log and the clock. *)
Definition same_session (w w' : world) : Prop :=
  _pdev w' = _pdev w /\ pruchar_mutex w' = pruchar_mutex w /\
  message w' = message w /\ user w' = user w /\
  user_ok w' = user_ok w /\ pins w' = pins w.

(** The interrupt controller lies above the shared RAM (on the AM335x it is
    at 0x20000, the shared RAM at 0x10000..0x12fff). *)
Definition intc_above_shared_ram (gdev : uio_pruss_dev) : Prop :=
  PRUSS_SHAREDRAM_BASE + SZ_12K <= pintc_base gdev.

(** The value the five address pins encode, pin P8_31 being bit 0. *)
Definition pins_value (pins : Z -> bool) : Z :=
  int_of_bool (pins GPIO_P8_31) + 2 * int_of_bool (pins GPIO_P8_32)
  + 4 * int_of_bool (pins GPIO_P8_33) + 8 * int_of_bool (pins GPIO_P8_34)
  + 16 * int_of_bool (pins GPIO_P8_35).

(** An environment in which the coprocessor stores nothing and no interrupt
    line is raised. *)
Definition pru_idle (t : nat) (m : iomem) : iomem := m.
Definition raised_never (t : nat) : option Z := None.

(** Pins P8_31, P8_33 and P8_35 high, the others low. *)
Definition pins_10101 (id : Z) : bool :=
  (id =? GPIO_P8_31) || (id =? GPIO_P8_33) || (id =? GPIO_P8_35).

(** A caller whose buffer at 0x1000 ends after 16 bytes. *)
Definition short_buffer_ok (a : Z) : bool := a <? 0x1000 + 16.

Definition with_user_ok (ok : Z -> bool) (w : world) : world :=
  mk_world (_pdev w) (io w) (intr_completion w) (pruchar_mutex w) (message w)
           (user w) ok (pins w) (wlog w) (now w).

Definition with_pins (p : Z -> bool) (w : world) : world :=
  mk_world (_pdev w) (io w) (intr_completion w) (pruchar_mutex w) (message w)
           (user w) (user_ok w) p (wlog w) (now w).

Definition with_pdev (d : option (option uio_pruss_dev)) (w : world) : world :=
  mk_world d (io w) (intr_completion w) (pruchar_mutex w) (message w)
           (user w) (user_ok w) (pins w) (wlog w) (now w).

(** * Properties *)

(** ** Bytes and the region *)

Lemma u8_range (z : Z) : 0 <= u8 z < 256.
Proof.
  unfold u8. change 0xff with (Z.ones 8). rewrite Z.land_ones by lia.
  apply Z.mod_pos_bound. lia.
Qed.

Lemma u8_small (z : Z) : 0 <= z < 256 -> u8 z = z.
Proof.
  intros H. unfold u8. change 0xff with (Z.ones 8).
  rewrite Z.land_ones by lia. apply Z.mod_small. exact H.
Qed.

Lemma u8_idem (z : Z) : u8 (u8 z) = u8 z.
Proof. apply u8_small, u8_range. Qed.

Lemma ioread8_iowrite8_eq (v a : Z) (m : iomem) :
  ioread8 (iowrite8 v a m) a = u8 v.
Proof. unfold ioread8, iowrite8. rewrite Z.eqb_refl. apply u8_idem. Qed.

Lemma iowrite8_neq (v a b : Z) (m : iomem) :
  b <> a -> iowrite8 v a m b = m b.
Proof. intros H. unfold iowrite8. apply Z.eqb_neq in H. now rewrite H. Qed.

Lemma ioread8_iowrite8_neq (v a b : Z) (m : iomem) :
  b <> a -> ioread8 (iowrite8 v a m) b = ioread8 m b.
Proof. intros H. unfold ioread8. now rewrite iowrite8_neq. Qed.

(** Turns boolean comparisons among the hypotheses into propositions. *)
Ltac zbool :=
  repeat match goal with
         | H : (_ <? _) = true |- _ => apply Z.ltb_lt in H
         | H : (_ <? _) = false |- _ => apply Z.ltb_ge in H
         | H : (_ <=? _) = true |- _ => apply Z.leb_le in H
         | H : (_ <=? _) = false |- _ => apply Z.leb_gt in H
         | H : (_ =? _) = true |- _ => apply Z.eqb_eq in H
         | H : (_ =? _) = false |- _ => apply Z.eqb_neq in H
         end.

(** Decides the side conditions of a frame argument over byte stores. *)
Ltac frame_byte :=
  repeat match goal with
         | |- context [ioread8 (iowrite8 ?v ?a ?m) ?b] =>
           rewrite (ioread8_iowrite8_neq v a b m) by lia
         | |- context [iowrite8 ?v ?a ?m ?b] =>
           rewrite (iowrite8_neq v a b m) by lia
         end.

(** ** Baud configuration *)

Lemma baudrate_switch_cases (rate : Z) :
  baudrate_switch rate = None \/ In rate supported_rates.
Proof.
  destruct rate as [|q|q]; [now left| |now left].
  unfold baudrate_switch, supported_rates.
  repeat (match goal with
          | |- context [match ?x with xI _ => _ | xO _ => _ | xH => _ end] =>
            destruct x
          end;
          try (left; reflexivity);
          try (right; simpl; tauto)).
Qed.

Lemma baudrate_switch_table (rate : Z) :
  baudrate_switch rate =
  option_map (fun pr => (config_byte pr, divisor_lsb pr, divisor_msb pr,
                         byte_time_ns pr))
             (profile_of rate).
Proof.
  destruct (baudrate_switch_cases rate) as [H|H].
  - rewrite H. unfold profile_of, baud_table. cbn [find baud_rate].
    repeat match goal with
           | |- context [?c =? rate] =>
             destruct (Z.eqb_spec c rate);
               [subst rate; discriminate H|]
           end.
    reflexivity.
  - unfold supported_rates in H. simpl in H.
    repeat (destruct H as [H|H]; [subst rate; reflexivity|]).
    contradiction.
Qed.

Lemma profile_of_supported (rate : Z) :
  In rate supported_rates <-> profile_of rate <> None.
Proof.
  split.
  - unfold supported_rates. simpl. intros H.
    repeat (destruct H as [H|H]; [subst rate; discriminate|]).
    contradiction.
  - intros H. destruct (baudrate_switch_cases rate) as [E|E]; [|exact E].
    rewrite baudrate_switch_table in E.
    destruct (profile_of rate); [discriminate E|congruence].
Qed.

Lemma config_baudrate_writes (p rate : Z) (m : iomem) (pr : BaudProfile) :
  profile_of rate = Some pr ->
  0 <= config_byte pr < 256 -> 0 <= divisor_lsb pr < 256 ->
  0 <= divisor_msb pr < 256 ->
  fst (__dev_config_baudrate p rate m) = 0 /\
  let m' := snd (__dev_config_baudrate p rate m) in
  ioread8 m' (p + 2) = config_byte pr /\
  ioread8 m' (p + 3) = divisor_lsb pr /\
  ioread8 m' (p + 4) = divisor_msb pr /\
  ioread8 m' (p + 26) = u8 (byte_time_ns pr) /\
  ioread8 m' (p + 27) = u8 (Z.shiftr (byte_time_ns pr) 8) /\
  ioread8 m' (p + 28) = u8 (Z.shiftr (byte_time_ns pr) 16) /\
  forall a, ~ In (a - p) baud_offsets -> m' a = m a.
Proof.
  intros Hpr Hc Hl Hm.
  unfold __dev_config_baudrate. rewrite baudrate_switch_table, Hpr.
  cbn [option_map fst snd].
  unfold BAUD_BRGCONFIG_OFFSET, BAUD_LSB_OFFSET, BAUD_MSB_OFFSET,
    BAUD_LENGTH_OFFSET.
  split; [reflexivity|]. cbv zeta.
  replace (p + 26 + 1) with (p + 27) by lia.
  replace (p + 26 + 2) with (p + 28) by lia.
  repeat split.
  - frame_byte. rewrite ioread8_iowrite8_eq. now apply u8_small.
  - frame_byte. rewrite ioread8_iowrite8_eq. now apply u8_small.
  - frame_byte. rewrite ioread8_iowrite8_eq. now apply u8_small.
  - frame_byte. rewrite ioread8_iowrite8_eq. apply u8_idem.
  - frame_byte. rewrite ioread8_iowrite8_eq. apply u8_idem.
  - rewrite ioread8_iowrite8_eq. apply u8_idem.
  - intros a Ha. unfold baud_offsets in Ha. simpl in Ha.
    assert (a <> p + 2 /\ a <> p + 3 /\ a <> p + 4 /\
            a <> p + 26 /\ a <> p + 27 /\ a <> p + 28) as H.
    { repeat split; intros E; apply Ha; subst a;
        match goal with
        | |- context [?x - p] => replace (x - p) with (x - p) by lia
        end; repeat ((left; lia) || right). }
    destruct H as (H1 & H2 & H3 & H4 & H5 & H6).
    now rewrite !iowrite8_neq by assumption.
Qed.

(** C3. For every rate of the supported set, [__dev_config_baudrate] stores
    the profile of the baud table: the configuration byte at offset 2, the
    divisor at offsets 3 and 4, the byte time as three little-endian bytes
    at offsets 26 to 28, changes no other byte and returns 0.  For any
    other rate it returns [-EINVAL] and the region is the one it was given. *)
Theorem config_baudrate_all_or_nothing (p rate : Z) (m : iomem) :
  (In rate supported_rates ->
   exists pr,
     profile_of rate = Some pr /\ baud_rate pr = rate /\
     fst (__dev_config_baudrate p rate m) = 0 /\
     let m' := snd (__dev_config_baudrate p rate m) in
     ioread8 m' (p + 2) = config_byte pr /\
     ioread8 m' (p + 3) = divisor_lsb pr /\
     ioread8 m' (p + 4) = divisor_msb pr /\
     ioread8 m' (p + 26) + 2 ^ 8 * ioread8 m' (p + 27)
       + 2 ^ 16 * ioread8 m' (p + 28) = byte_time_ns pr /\
     forall a, ~ In (a - p) baud_offsets -> m' a = m a)
  /\ (~ In rate supported_rates ->
      __dev_config_baudrate p rate m = (- EINVAL, m)).
Proof.
  split.
  - intros Hin. unfold supported_rates in Hin. simpl in Hin.
    repeat (destruct Hin as [Hin|Hin];
            [subst rate;
             eexists; split; [reflexivity|]; split; [reflexivity|];
             match goal with
             | |- context [__dev_config_baudrate p ?r m] =>
               destruct (config_baudrate_writes p r m _ eq_refl)
                 as (H0 & H2 & H3 & H4 & H26 & H27 & H28 & Hfr);
                 [simpl; lia | simpl; lia | simpl; lia |]
             end;
             split; [exact H0|]; cbv zeta;
             rewrite H2, H3, H4, H26, H27, H28;
             repeat split; try exact Hfr; reflexivity|]).
    contradiction.
  - intros Hout. destruct (baudrate_switch_cases rate) as [E|E].
    + unfold __dev_config_baudrate. now rewrite E.
    + contradiction.
Qed.

Lemma config_baudrate_all_or_nothing_witness :
  (ioread8 (snd (__dev_config_baudrate PRUSS_SHAREDRAM_BASE 9600 ones_io))
           (PRUSS_SHAREDRAM_BASE + 3) = 0x86)
  /\ __dev_config_baudrate PRUSS_SHAREDRAM_BASE 7 ones_io = (- EINVAL, ones_io).
Proof.
  destruct (config_baudrate_all_or_nothing PRUSS_SHAREDRAM_BASE 9600 ones_io)
    as [Hin _].
  destruct (config_baudrate_all_or_nothing PRUSS_SHAREDRAM_BASE 7 ones_io)
    as [_ Hout].
  split.
  - destruct Hin as (pr & Hpr & _ & _ & _ & H3 & _).
    + unfold supported_rates. simpl. tauto.
    + cbv zeta in H3. rewrite H3.
      injection Hpr as <-. reflexivity.
  - apply Hout. unfold supported_rates. simpl. lia.
Defined.

(** ** Control commands *)

Lemma for_upto_store (f : Z -> Z) (p : Z) (n : nat) (m : iomem) (a : Z) :
  for_upto n (fun count m => iowrite8 (f count) (p + count) m) m a =
  if in_range p (Z.of_nat n) a then u8 (f (a - p)) else m a.
Proof.
  unfold in_range. induction n as [|n IH].
  - simpl. destruct (p <=? a) eqn:E1, (a <? p + 0) eqn:E2; simpl; try reflexivity.
    zbool. lia.
  - cbn [for_upto]. unfold iowrite8 at 1.
    destruct (Z.eqb_spec a (p + Z.of_nat n)) as [E|E].
    + subst a.
      replace (p <=? p + Z.of_nat n) with true by (symmetry; apply Z.leb_le; lia).
      replace (p + Z.of_nat n <? p + Z.of_nat (S n)) with true
        by (symmetry; apply Z.ltb_lt; lia).
      cbn [andb]. f_equal. f_equal. lia.
    + rewrite IH.
      destruct (p <=? a) eqn:E1; cbn [andb]; [|reflexivity].
      destruct (a <? p + Z.of_nat n) eqn:E2, (a <? p + Z.of_nat (S n)) eqn:E3;
        try reflexivity; zbool; lia.
Qed.

Lemma for_upto_zero (p : Z) (n : nat) (m : iomem) (a : Z) :
  for_upto n (fun count m => iowrite8 0 (p + count) m) m a =
  if in_range p (Z.of_nat n) a then 0 else m a.
Proof. exact (for_upto_store (fun _ => 0) p n m a). Qed.

Lemma ioctl_clean (gdev : uio_pruss_dev) (w : world) (arg : Z) :
  attached gdev w ->
  dev_unlocked_ioctl PRUSS_CLEAN arg w =
  (0, set_io (snd (__dev_clean_sram PRUSS_SHAREDRAM_BASE (io w))) w).
Proof.
  intros Hw. unfold attached in Hw. unfold dev_unlocked_ioctl. rewrite Hw.
  reflexivity.
Qed.

(** C6, as the code has it.  The Clean command returns 0 and zeroes exactly
    the first 100 bytes of the shared RAM, offsets 0x10000 to 0x10063 of the
    mapped region; every other byte of the region, and the rest of the
    driver state, is unchanged. *)
Theorem clean_zeroes_shared_ram (gdev : uio_pruss_dev) (w : world) (arg : Z) :
  attached gdev w ->
  let r := dev_unlocked_ioctl PRUSS_CLEAN arg w in
  fst r = 0 /\
  (forall a, io (snd r) a =
             if in_range PRUSS_SHAREDRAM_BASE 100 a then 0 else io w a) /\
  snd r = set_io (io (snd r)) w.
Proof.
  intros Hw. rewrite (ioctl_clean gdev w arg Hw).
  cbn [fst snd io set_io __dev_clean_sram]. repeat split.
  intros a. apply (for_upto_zero _ 100).
Qed.

Lemma clean_zeroes_shared_ram_witness :
  io (snd (dev_unlocked_ioctl PRUSS_CLEAN 0 (world0 ones_io))) 0x10063 = 0 /\
  io (snd (dev_unlocked_ioctl PRUSS_CLEAN 0 (world0 ones_io))) 0x10064 = 1.
Proof.
  destruct (clean_zeroes_shared_ram gdev0 (world0 ones_io) 0 eq_refl)
    as (_ & H & _).
  split; rewrite H; reflexivity.
Defined.

(** C6, as the specification words it: zeroing the first 100 bytes at the
    base of the mapped region.  With every byte reading 1, byte 0 of the
    region still reads 1 after Clean. *)
Lemma clean_base_counterexample :
  ~ (forall a,
        io (snd (dev_unlocked_ioctl PRUSS_CLEAN 0 (world0 ones_io))) a =
        if in_range 0 100 a then 0 else io (world0 ones_io) a).
Proof.
  intros H. specialize (H 0). vm_compute in H. discriminate H.
Qed.

Lemma ioctl_timeout (gdev : uio_pruss_dev) (w : world) (arg : Z) :
  attached gdev w ->
  let scaled := u32 (arg * 66600) in
  let r := dev_unlocked_ioctl PRUSS_TIMEOUT arg w in
  fst r = 0 /\
  ioread8 (io (snd r)) (PRUSS_SHAREDRAM_BASE + 6) = u8 scaled /\
  ioread8 (io (snd r)) (PRUSS_SHAREDRAM_BASE + 7) = int_of_bool (8 <? scaled) /\
  ioread8 (io (snd r)) (PRUSS_SHAREDRAM_BASE + 8) = int_of_bool (16 <? scaled) /\
  ioread8 (io (snd r)) (PRUSS_SHAREDRAM_BASE + 9) = int_of_bool (24 <? scaled).
Proof.
  intros Hw scaled r. subst r. unfold attached in Hw.
  unfold dev_unlocked_ioctl. rewrite Hw.
  change (PRUSS_TIMEOUT =? PRUSS_MODE) with false.
  change (PRUSS_TIMEOUT =? PRUSS_BAUDRATE) with false.
  change (PRUSS_TIMEOUT =? PRUSS_SYNC_STEP) with false.
  change (PRUSS_TIMEOUT =? PRUSS_CLEAN) with false.
  change (PRUSS_TIMEOUT =? PRUSS_SET_COUNTER) with false.
  change (PRUSS_TIMEOUT =? PRUSS_GET_HW_ADDRESS) with false.
  change (PRUSS_TIMEOUT =? PRUSS_TIMEOUT) with true.
  cbv iota zeta. fold scaled. cbn [fst snd io set_io].
  rewrite Z.add_0_l. unfold TIMEOUT_OFFSET.
  replace (PRUSS_SHAREDRAM_BASE + 6 + 1) with (PRUSS_SHAREDRAM_BASE + 7) by lia.
  replace (PRUSS_SHAREDRAM_BASE + 6 + 2) with (PRUSS_SHAREDRAM_BASE + 8) by lia.
  replace (PRUSS_SHAREDRAM_BASE + 6 + 3) with (PRUSS_SHAREDRAM_BASE + 9) by lia.
  split; [reflexivity|].
  repeat split; frame_byte; rewrite ioread8_iowrite8_eq;
    try (now destruct (_ <? scaled)).
  fold (u8 scaled). apply u8_idem.
Qed.

(** C5.  SetTimeout(1): the scaled value is 66600 = 0x00010428, so the four
    lanes of the specification are 0x28, 0x04, 0x01, 0x00.  The code stores
    the low byte in lane 0 and the truth values of [arg > 8], [arg > 16] and
    [arg > 24] in lanes 1 to 3. *)
Theorem timeout_lanes_at_one (gdev : uio_pruss_dev) (w : world) :
  attached gdev w ->
  let r := dev_unlocked_ioctl PRUSS_TIMEOUT 1 w in
  fst r = 0 /\
  map (fun i => ioread8 (io (snd r)) (PRUSS_SHAREDRAM_BASE + 6 + i)) [0; 1; 2; 3]
  = [0x28; 1; 1; 1] /\
  map (spec_timeout_lane 1) [0; 1; 2; 3] = [0x28; 0x04; 0x01; 0x00].
Proof.
  intros Hw. unfold attached in Hw. unfold dev_unlocked_ioctl. rewrite Hw.
  repeat split.
Qed.

Lemma timeout_lanes_at_one_witness :
  ioread8 (io (snd (dev_unlocked_ioctl PRUSS_TIMEOUT 1 (world0 ones_io))))
          (PRUSS_SHAREDRAM_BASE + 6 + 1) = 1 /\
  spec_timeout_lane 1 1 = 4.
Proof.
  destruct (timeout_lanes_at_one gdev0 (world0 ones_io) eq_refl)
    as (_ & Hcode & Hspec).
  split.
  - exact (f_equal (fun l => nth 1 l 0) Hcode).
  - exact (f_equal (fun l => nth 1 l 0) Hspec).
Defined.

(** ** Session lock *)

(** C8.  Open fails with [-EBUSY] and changes nothing while the mutex is
    held, so the second of two successive opens always fails; on a free mutex
    it takes the lock, resets the completion and returns 0.  Release returns
    0 and leaves the mutex free whatever its state was. *)
Theorem open_release_lock (w : world) :
  (pruchar_mutex w = true -> dev_open w = (- EBUSY, w)) /\
  (pruchar_mutex w = false ->
   fst (dev_open w) = 0 /\
   pruchar_mutex (snd (dev_open w)) = true /\
   intr_completion (snd (dev_open w)) = 0%nat) /\
  dev_open (snd (dev_open w)) = (- EBUSY, snd (dev_open w)) /\
  fst (dev_release w) = 0 /\
  pruchar_mutex (snd (dev_release w)) = false.
Proof.
  unfold dev_open, dev_release.
  destruct (pruchar_mutex w) eqn:E; cbn; rewrite ?E; repeat split;
    intros; try discriminate; reflexivity.
Qed.

Lemma open_release_lock_witness :
  dev_open (world0 ones_io)
  = (0, init_completion (set_mutex true (world0 ones_io))) /\
  dev_open (set_mutex true (world0 ones_io))
  = (- EBUSY, set_mutex true (world0 ones_io)).
Proof.
  split.
  - reflexivity.
  - exact (proj1 (open_release_lock (set_mutex true (world0 ones_io))) eq_refl).
Defined.

(** ** Mode control *)

Lemma ioctl_mode (gdev : uio_pruss_dev) (w : world) (arg : Z) :
  attached gdev w ->
  dev_unlocked_ioctl PRUSS_MODE arg w =
  if (arg =? CHAR_M) || (arg =? CHAR_S)
  then (0, set_io
             (let m := snd (__dev_set_sync_stop PRUSS_SHAREDRAM_BASE
                              (iowrite8 arg (PRUSS_SHAREDRAM_BASE + MODE_OFFSET)
                                        (io w))) in
              if arg =? CHAR_S
              then iowrite8 OLD_MESSAGE (PRUSS_SHAREDRAM_BASE + STATUS_OFFSET) m
              else m) w)
  else (- EINVAL, w).
Proof.
  intros Hw. unfold attached in Hw. unfold dev_unlocked_ioctl. rewrite Hw.
  reflexivity.
Qed.

Lemma sync_stop_after_mode (p arg : Z) (m : iomem) :
  0 <= arg < 256 ->
  __dev_set_sync_stop p (iowrite8 arg (p + MODE_OFFSET) m) =
  if arg =? CHAR_M
  then (0, iowrite8 0 (p + 5) (iowrite8 arg (p + MODE_OFFSET) m))
  else (- EINVAL, iowrite8 arg (p + MODE_OFFSET) m).
Proof.
  intros Harg. unfold __dev_set_sync_stop.
  rewrite ioread8_iowrite8_eq, u8_small by exact Harg.
  now destruct (arg =? CHAR_M).
Qed.

Lemma attached_set_io (gdev : uio_pruss_dev) (w : world) (m : iomem) :
  attached gdev w -> attached gdev (set_io m w).
Proof. exact (fun H => H). Qed.

Lemma set_mode_master (gdev : uio_pruss_dev) (w : world) :
  attached gdev w ->
  dev_unlocked_ioctl PRUSS_MODE CHAR_M w =
  (0, set_io (iowrite8 0 (PRUSS_SHAREDRAM_BASE + 5)
                (iowrite8 CHAR_M (PRUSS_SHAREDRAM_BASE + MODE_OFFSET) (io w))) w).
Proof.
  intros Hw. rewrite (ioctl_mode gdev w CHAR_M Hw).
  rewrite sync_stop_after_mode by (unfold CHAR_M; lia). reflexivity.
Qed.

Lemma set_mode_slave (gdev : uio_pruss_dev) (w : world) :
  attached gdev w ->
  dev_unlocked_ioctl PRUSS_MODE CHAR_S w =
  (0, set_io (iowrite8 OLD_MESSAGE (PRUSS_SHAREDRAM_BASE + STATUS_OFFSET)
                (iowrite8 CHAR_S (PRUSS_SHAREDRAM_BASE + MODE_OFFSET) (io w))) w).
Proof.
  intros Hw. rewrite (ioctl_mode gdev w CHAR_S Hw).
  rewrite sync_stop_after_mode by (unfold CHAR_S; lia). reflexivity.
Qed.

(** C4.  SetMode with ['M'] or ['S'] stores the mode at offset 25, runs
    [__dev_set_sync_stop] on the region so updated, for ['S'] also stores
    0x55 in the status byte at offset 1, and returns 0.  For ['M'] the stop
    byte at offset 5 is cleared and nothing but bytes 25 and 5 changes; for
    ['S'] nothing but bytes 25 and 1 changes.  Any other argument returns
    [-EINVAL] and leaves the whole state, mode and status included, as it
    was.  SetMode('M') followed by SetMode('S') leaves the status at 0x55. *)
Theorem set_mode_effect (gdev : uio_pruss_dev) (w : world) (arg : Z) :
  attached gdev w ->
  let p := PRUSS_SHAREDRAM_BASE in
  let r := dev_unlocked_ioctl PRUSS_MODE arg w in
  (arg = CHAR_M ->
   fst r = 0 /\
   io (snd r) = snd (__dev_set_sync_stop p (iowrite8 arg (p + 25) (io w))) /\
   ioread8 (io (snd r)) (p + 25) = CHAR_M /\
   ioread8 (io (snd r)) (p + 5) = 0 /\
   forall a, a <> p + 25 -> a <> p + 5 -> io (snd r) a = io w a) /\
  (arg = CHAR_S ->
   fst r = 0 /\
   io (snd r) =
     iowrite8 0x55 (p + 1)
       (snd (__dev_set_sync_stop p (iowrite8 arg (p + 25) (io w)))) /\
   ioread8 (io (snd r)) (p + 25) = CHAR_S /\
   ioread8 (io (snd r)) (p + 1) = 0x55 /\
   forall a, a <> p + 25 -> a <> p + 1 -> io (snd r) a = io w a) /\
  (arg <> CHAR_M -> arg <> CHAR_S -> r = (- EINVAL, w)) /\
  ioread8 (io (snd (dev_unlocked_ioctl PRUSS_MODE CHAR_S
                      (snd (dev_unlocked_ioctl PRUSS_MODE CHAR_M w)))))
          (p + 1) = 0x55.
Proof.
  intros Hw p r. subst r.
  split; [|split; [|split]].
  - intros ->. rewrite (ioctl_mode gdev w CHAR_M Hw).
    cbn [orb Z.eqb fst snd io set_io]. change (CHAR_M =? CHAR_M) with true.
    change (CHAR_M =? CHAR_S) with false. cbn [orb fst snd io set_io].
    split; [reflexivity|]. split; [reflexivity|].
    rewrite sync_stop_after_mode by (unfold CHAR_M; lia).
    change (CHAR_M =? CHAR_M) with true. cbn [snd].
    unfold p, MODE_OFFSET. repeat split.
    intros a H1 H2. now frame_byte.
  - intros ->. rewrite (ioctl_mode gdev w CHAR_S Hw).
    change (CHAR_S =? CHAR_M) with false. change (CHAR_S =? CHAR_S) with true.
    cbn [orb fst snd io set_io].
    split; [reflexivity|]. split; [reflexivity|].
    rewrite sync_stop_after_mode by (unfold CHAR_S; lia).
    change (CHAR_S =? CHAR_M) with false. cbn [snd].
    unfold p, MODE_OFFSET, STATUS_OFFSET, OLD_MESSAGE. repeat split.
    intros a H1 H2. now frame_byte.
  - intros HM HS. rewrite (ioctl_mode gdev w arg Hw).
    apply Z.eqb_neq in HM, HS. now rewrite HM, HS.
  - rewrite (set_mode_master gdev w Hw). cbn [snd].
    rewrite (set_mode_slave gdev _ (attached_set_io gdev w _ Hw)).
    cbn [snd io set_io]. unfold p, STATUS_OFFSET.
    now rewrite ioread8_iowrite8_eq.
Qed.

Lemma set_mode_effect_witness :
  ioread8 (io (snd (dev_unlocked_ioctl PRUSS_MODE CHAR_S
                      (snd (dev_unlocked_ioctl PRUSS_MODE CHAR_M
                              (world0 ones_io))))))
          (PRUSS_SHAREDRAM_BASE + 1) = 0x55 /\
  dev_unlocked_ioctl PRUSS_MODE 88 (world0 ones_io) = (- EINVAL, world0 ones_io).
Proof.
  destruct (set_mode_effect gdev0 (world0 ones_io) 88 eq_refl)
    as (_ & _ & Hbad & Hseq).
  split.
  - exact Hseq.
  - apply Hbad; unfold CHAR_M, CHAR_S; lia.
Defined.

(** C10.  The result of the embedded [__dev_set_sync_stop] is dropped.
    SetMode stores its argument in the mode byte at offset 25 and runs
    [__dev_set_sync_stop] on the region so updated; the region SetMode leaves
    is the one that call leaves, for ['S'] with 0x55 stored in the status
    byte on top of it.  Under SetMode('S') that call finds the mode byte
    reading ['S'], returns [-EINVAL] and leaves byte 5 as it was; under
    SetMode('M') it returns 0 and clears byte 5.  SetMode returns 0 in both
    cases. *)
Theorem set_mode_drops_sync_stop_result (gdev : uio_pruss_dev) (w : world) :
  attached gdev w ->
  let p := PRUSS_SHAREDRAM_BASE in
  let stop arg :=
    __dev_set_sync_stop p (iowrite8 arg (p + MODE_OFFSET) (io w)) in
  (fst (stop CHAR_S) = - EINVAL /\
   dev_unlocked_ioctl PRUSS_MODE CHAR_S w
   = (0, set_io (iowrite8 OLD_MESSAGE (p + STATUS_OFFSET) (snd (stop CHAR_S)))
                w) /\
   ioread8 (io (snd (dev_unlocked_ioctl PRUSS_MODE CHAR_S w))) (p + MODE_OFFSET)
   = CHAR_S /\
   ioread8 (io (snd (dev_unlocked_ioctl PRUSS_MODE CHAR_S w))) (p + 5)
   = ioread8 (io w) (p + 5)) /\
  (fst (stop CHAR_M) = 0 /\
   dev_unlocked_ioctl PRUSS_MODE CHAR_M w = (0, set_io (snd (stop CHAR_M)) w) /\
   ioread8 (io (snd (dev_unlocked_ioctl PRUSS_MODE CHAR_M w))) (p + MODE_OFFSET)
   = CHAR_M /\
   ioread8 (io (snd (dev_unlocked_ioctl PRUSS_MODE CHAR_M w))) (p + 5) = 0) /\
  forall arg, arg = CHAR_M \/ arg = CHAR_S ->
              fst (dev_unlocked_ioctl PRUSS_MODE arg w) = 0 /\
              (fst (stop arg) = 0 <-> arg = CHAR_M).
Proof.
  intros Hw p stop. subst stop. cbv beta.
  rewrite (set_mode_master gdev w Hw), (set_mode_slave gdev w Hw).
  rewrite !sync_stop_after_mode by (unfold CHAR_M, CHAR_S; lia).
  change (CHAR_S =? CHAR_M) with false. change (CHAR_M =? CHAR_M) with true.
  cbn [fst snd io set_io]. subst p.
  split; [|split].
  - split; [reflexivity|]. split; [reflexivity|]. split.
    + unfold STATUS_OFFSET, MODE_OFFSET, PRUSS_SHAREDRAM_BASE.
      rewrite ioread8_iowrite8_neq by lia.
      now rewrite ioread8_iowrite8_eq.
    + unfold STATUS_OFFSET, MODE_OFFSET, PRUSS_SHAREDRAM_BASE.
      now rewrite !ioread8_iowrite8_neq by lia.
  - split; [reflexivity|]. split; [reflexivity|]. split.
    + unfold MODE_OFFSET, PRUSS_SHAREDRAM_BASE.
      rewrite ioread8_iowrite8_neq by lia.
      now rewrite ioread8_iowrite8_eq.
    + now rewrite ioread8_iowrite8_eq.
  - intros arg [-> | ->].
    + rewrite (set_mode_master gdev w Hw).
      rewrite sync_stop_after_mode by (unfold CHAR_M; lia).
      change (CHAR_M =? CHAR_M) with true. now split.
    + rewrite (set_mode_slave gdev w Hw).
      rewrite sync_stop_after_mode by (unfold CHAR_S; lia).
      change (CHAR_S =? CHAR_M) with false. cbn [fst].
      split; [reflexivity|]. split; intros H; discriminate H.
Qed.

Lemma set_mode_drops_sync_stop_result_witness :
  fst (__dev_set_sync_stop PRUSS_SHAREDRAM_BASE
         (iowrite8 CHAR_S (PRUSS_SHAREDRAM_BASE + MODE_OFFSET)
                   (io (world0 ones_io)))) = - EINVAL /\
  ioread8 (io (snd (dev_unlocked_ioctl PRUSS_MODE CHAR_S (world0 ones_io))))
          (PRUSS_SHAREDRAM_BASE + MODE_OFFSET) = CHAR_S /\
  ioread8 (io (snd (dev_unlocked_ioctl PRUSS_MODE CHAR_S (world0 ones_io))))
          (PRUSS_SHAREDRAM_BASE + 5) = 1 /\
  fst (dev_unlocked_ioctl PRUSS_MODE CHAR_S (world0 ones_io)) = 0.
Proof.
  destruct (set_mode_drops_sync_stop_result gdev0 (world0 ones_io) eq_refl)
    as ((Hstop & _ & Hmode & Hkeep) & _ & Hret).
  split; [exact Hstop|]. split; [exact Hmode|]. split.
  - rewrite Hkeep. reflexivity.
  - apply Hret. now right.
Defined.

(** ** Words of the region *)

Lemma land_bit (v n : Z) :
  0 <= n -> (Z.land v (Z.shiftl 1 n) =? 0) = negb (Z.testbit v n).
Proof.
  intros Hn. rewrite Z.shiftl_1_l.
  assert (Z.land v (2 ^ n) = if Z.testbit v n then 2 ^ n else 0) as ->.
  { apply Z.bits_inj'. intros k Hk.
    rewrite Z.land_spec, Z.pow2_bits_eqb by exact Hn.
    destruct (Z.eqb_spec n k) as [<-|Hne].
    - destruct (Z.testbit v n); [now rewrite Z.pow2_bits_eqb, Z.eqb_refl|].
      now rewrite Z.bits_0.
    - rewrite andb_false_r. destruct (Z.testbit v n).
      + rewrite Z.pow2_bits_eqb by exact Hn. symmetry. now apply Z.eqb_neq.
      + now rewrite Z.bits_0. }
  destruct (Z.testbit v n); [|reflexivity].
  apply Z.eqb_neq. apply Z.pow_nonzero; lia.
Qed.

Lemma byte_lane_bit (v s k : Z) :
  0 <= s -> 0 <= k ->
  Z.testbit (Z.shiftl (u8 (Z.shiftr v s)) s) k =
  Z.testbit v k && ((s <=? k) && (k <? s + 8)).
Proof.
  intros Hs Hk. unfold u8. change 0xff with (Z.ones 8).
  rewrite Z.shiftl_spec by exact Hk.
  destruct (Z.leb_spec s k) as [Hle|Hlt].
  - rewrite Z.land_spec, Z.shiftr_spec, Z.testbit_ones_nonneg by lia.
    replace (k - s + s) with k by lia.
    f_equal. cbn [andb].
    destruct (Z.ltb_spec (k - s) 8), (Z.ltb_spec k (s + 8)); (reflexivity || lia).
  - rewrite Z.testbit_neg_r by lia. now rewrite andb_false_r.
Qed.

Lemma le32_join (v : Z) :
  0 <= v < 2 ^ 32 ->
  Z.lor (u8 v)
    (Z.lor (Z.shiftl (u8 (Z.shiftr v 8)) 8)
       (Z.lor (Z.shiftl (u8 (Z.shiftr v 16)) 16)
          (Z.shiftl (u8 (Z.shiftr v 24)) 24))) = v.
Proof.
  intros Hv. apply Z.bits_inj'. intros k Hk.
  rewrite <- (Z.shiftl_0_r (u8 v)).
  rewrite <- (Z.shiftr_0_r v) at 1.
  rewrite !Z.lor_spec, !byte_lane_bit by lia.
  destruct (Z.ltb_spec k 32) as [Hlo|Hhi].
  - destruct (Z.testbit v k); [|reflexivity]. cbn [andb].
    destruct (Z.leb_spec 0 k), (Z.ltb_spec k (0 + 8)),
      (Z.leb_spec 8 k), (Z.ltb_spec k (8 + 8)),
      (Z.leb_spec 16 k), (Z.ltb_spec k (16 + 8)),
      (Z.leb_spec 24 k), (Z.ltb_spec k (24 + 8)); (reflexivity || lia).
  - rewrite <- (Z.mod_small v (2 ^ 32)) by exact Hv.
    now rewrite Z.mod_pow2_bits_high by lia.
Qed.

Lemma ioread32_iowrite32_eq (v a : Z) (m : iomem) :
  0 <= v < 2 ^ 32 -> ioread32 (iowrite32 v a m) a = v.
Proof.
  intros Hv. unfold ioread32, iowrite32.
  frame_byte. rewrite !ioread8_iowrite8_eq.
  now apply le32_join.
Qed.

Lemma iowrite32_outside (v a b : Z) (m : iomem) :
  in_range a 4 b = false -> iowrite32 v a m b = m b.
Proof.
  unfold in_range. intros H. unfold iowrite32.
  destruct (Z.leb_spec a b), (Z.ltb_spec b (a + 4)); try discriminate H;
    now frame_byte.
Qed.

(** ** Interrupt handshake *)

(** The line of [PRU_EVTOUT]: a handled interrupt releases the completion
    and leaves the index of the line in the disable register. *)
Lemma pruss_handler_evtout (gdev : uio_pruss_dev) (w : world) :
  fst (pruss_handler (hostirq_start gdev + 1) gdev w) = IRQ_HANDLED ->
  intr_completion (snd (pruss_handler (hostirq_start gdev + 1) gdev w))
  = S (intr_completion w) /\
  ioread32 (io (snd (pruss_handler (hostirq_start gdev + 1) gdev w)))
           (pintc_base gdev + PINTC_HIDISR) = PRU_EVTOUT.
Proof.
  unfold pruss_handler. cbv zeta.
  replace (hostirq_start gdev + 1 - hostirq_start gdev + 2) with PRU_EVTOUT
    by (unfold PRU_EVTOUT; lia).
  replace (0 + pintc_base gdev) with (pintc_base gdev) by lia.
  destruct (_ && _); cbn [fst snd]; [discriminate|]. intros _.
  rewrite Z.eqb_refl. cbn [io set_io complete set_completion intr_completion].
  split; [reflexivity|].
  apply ioread32_iowrite32_eq. unfold PRU_EVTOUT. lia.
Qed.

(** The enable register after the line of [PRU_EVTOUT] is disabled and the
    write path has re-armed: as the code stores, and as the specification
    has it. *)
Lemma hier_after_rearm (gdev : uio_pruss_dev) (hier : Z) :
  let disabled := hier_step gdev hier (disable_step gdev PRU_EVTOUT) in
  Z.testbit disabled PRU_EVTOUT = false /\
  Z.testbit (hier_after gdev (rearm_steps gdev) disabled) PRU_EVTOUT = false /\
  Z.testbit (hier_after gdev (rearm_steps gdev) disabled) 8 = true /\
  Z.testbit (hier_after gdev (spec_rearm_steps gdev) disabled) PRU_EVTOUT
  = true.
Proof.
  unfold hier_after, rearm_steps, spec_rearm_steps, disable_step.
  cbn [fold_left hier_step].
  unfold PINTC_HIEISR, PINTC_HIDISR, PRU_INTC_SECR1_REG.
  destruct (Z.eqb_spec (pintc_base gdev + 56) (pintc_base gdev + 52)) as [E|_];
    [lia|].
  destruct (Z.eqb_spec (pintc_base gdev + 640) (pintc_base gdev + 52)) as [E|_];
    [lia|].
  destruct (Z.eqb_spec (pintc_base gdev + 640) (pintc_base gdev + 56)) as [E|_];
    [lia|].
  rewrite !Z.eqb_refl.
  change (Z.shiftl 1 PRU_EVTOUT) with 8. change PRU_EVTOUT with 3.
  cbv zeta.
  rewrite Z.setbit_neq, Z.clearbit_eq, !Z.setbit_eq by lia.
  repeat split.
Qed.

(** C7.  For each of the registered lines, with [bit] the event index of
    the line: when the event is neither enabled nor pending the handler
    returns [IRQ_NONE] and changes nothing; otherwise it returns
    [IRQ_HANDLED], writes [bit] to the disable register [PINTC_HIDISR],
    touches no other byte, and adds one completion exactly when [bit] is
    [PRU_EVTOUT], that is 3. *)
Theorem pruss_handler_contract (gdev : uio_pruss_dev) (w : world) (irq : Z) :
  hostirq_start gdev <= irq < hostirq_start gdev + MAX_PRUSS_EVT ->
  let bit := irq - hostirq_start gdev + 2 in
  let r := pruss_handler irq gdev w in
  (event_enabled gdev bit (io w) = false /\
   event_pending gdev bit (io w) = false ->
   r = (IRQ_NONE, w)) /\
  (event_enabled gdev bit (io w) = true \/
   event_pending gdev bit (io w) = true ->
   fst r = IRQ_HANDLED /\
   ioread32 (io (snd r)) (pintc_base gdev + PINTC_HIDISR) = bit /\
   (forall a, in_range (pintc_base gdev + PINTC_HIDISR) 4 a = false ->
              io (snd r) a = io w a) /\
   intr_completion (snd r) =
     (if bit =? 3 then S (intr_completion w) else intr_completion w) /\
   snd r = set_io (io (snd r)) (set_completion (intr_completion (snd r)) w)).
Proof.
  intros Hirq bit r. unfold MAX_PRUSS_EVT in Hirq.
  assert (2 <= bit <= 9) as Hbit by (unfold bit; lia).
  subst r. unfold pruss_handler. fold bit. cbv zeta.
  unfold event_enabled, event_pending.
  rewrite negb_involutive, land_bit by lia.
  change HIPIR_NOPEND with (Z.shiftl 1 31). rewrite land_bit by lia.
  rewrite Z.shiftl_mul_pow2 by lia.
  replace (0 + pintc_base gdev) with (pintc_base gdev) by lia.
  replace (bit * 2 ^ 2) with (4 * bit) by lia.
  destruct (Z.testbit (ioread32 (io w) (pintc_base gdev + PINTC_HIER)) bit);
    destruct (Z.testbit
                (ioread32 (io w) (pintc_base gdev + PINTC_HIPIR + 4 * bit)) 31);
    cbn [negb andb fst snd]; split;
    try (intros [? ?]; discriminate);
    try (intros [?|?]; discriminate);
    try (intros _; reflexivity);
    intros _;
    (split; [reflexivity|]);
    (split; [destruct (bit =? PRU_EVTOUT); cbn [io set_io complete set_completion];
             apply ioread32_iowrite32_eq; lia|]);
    (split; [intros a Ha; destruct (bit =? PRU_EVTOUT);
             cbn [io set_io complete set_completion];
             now apply iowrite32_outside|]);
    change PRU_EVTOUT with 3;
    destruct (bit =? 3); split; reflexivity.
Qed.

Lemma pruss_handler_contract_witness :
  pruss_handler 21 gdev0 (world0 quiet_io) = (IRQ_NONE, world0 quiet_io) /\
  intr_completion (snd (pruss_handler 21 gdev0 (world0 master_io))) = 1%nat.
Proof.
  assert (hostirq_start gdev0 <= 21 < hostirq_start gdev0 + MAX_PRUSS_EVT)
    as Hirq by (vm_compute; split; [discriminate|reflexivity]).
  split.
  - apply (proj1 (pruss_handler_contract gdev0 (world0 quiet_io) 21 Hirq)).
    split; vm_compute; reflexivity.
  - destruct (proj2 (pruss_handler_contract gdev0 (world0 master_io) 21 Hirq))
      as (_ & _ & _ & Hdone & _).
    + right. vm_compute. reflexivity.
    + exact Hdone.
Defined.

(** ** Read *)

Lemma array_set_app (pre : list Z) (x v : Z) (tl : list Z) :
  array_set (length pre) v (pre ++ x :: tl) = pre ++ v :: tl.
Proof. induction pre as [|y pre IH]; cbn; [reflexivity|now rewrite IH]. Qed.

Lemma skipn_cons_nth (n : nat) (l : list Z) :
  (n < length l)%nat -> skipn n l = nth n l 0 :: skipn (S n) l.
Proof.
  revert l. induction n as [|n IH]; intros [|x l] H; cbn in H; try lia.
  - reflexivity.
  - cbn [skipn nth]. apply IH. lia.
Qed.

(** The sampling loop of [dev_read] after [n] turns: the first [n] cells of
    the buffer hold the first [n] bytes of the shared RAM. *)
Lemma read_loop (p : Z) (n : nat) (w : world) :
  (n <= length (message w))%nat ->
  for_upto n
    (fun count w =>
       set_message (array_set (Z.to_nat count) (ioread8 (io w) (p + count))
                              (message w)) w) w
  = set_message (map (fun i => ioread8 (io w) (p + Z.of_nat i)) (seq 0 n)
                 ++ skipn n (message w)) w.
Proof.
  induction n as [|n IH]; intros Hn.
  - cbn. now destruct w.
  - cbn [for_upto]. rewrite IH by lia.
    cbn [io message set_message]. rewrite Nat2Z.id.
    rewrite (skipn_cons_nth n) by lia.
    set (pre := map _ (seq 0 n)).
    assert (length pre = n) as Hpre
      by (unfold pre; now rewrite length_map, length_seq).
    rewrite <- Hpre at 1. rewrite array_set_app.
    rewrite seq_S, map_app. cbn [map Nat.add]. fold pre.
    rewrite <- app_assoc. reflexivity.
Qed.

Lemma store_bytes_at (l : list Z) :
  forall (to : Z) (u : Z -> Z) (a : Z),
    store_bytes to l u a =
    if in_range to (Z.of_nat (length l)) a
    then nth (Z.to_nat (a - to)) l 0 else u a.
Proof.
  unfold in_range.
  induction l as [|b l IH]; intros to u a.
  - cbn. destruct (Z.leb_spec to a), (Z.ltb_spec a (to + 0)); (reflexivity || lia).
  - cbn [store_bytes]. rewrite IH. cbn [length].
    destruct (Z.leb_spec (to + 1) a), (Z.ltb_spec a (to + 1 + Z.of_nat (length l))),
      (Z.leb_spec to a), (Z.ltb_spec a (to + Z.of_nat (S (length l))));
      cbn [andb]; try lia;
      first [ destruct (Z.eqb_spec a to); [lia|reflexivity]
            | replace (Z.to_nat (a - to)) with (S (Z.to_nat (a - (to + 1))))
                by lia; reflexivity
            | assert (a = to) as -> by lia;
              rewrite Z.eqb_refl, Z.sub_diag; reflexivity ].
Qed.

Lemma access_ok_spec (ok : Z -> bool) (to n : Z) :
  access_ok ok to n = true <-> forall i, 0 <= i < n -> ok (to + i) = true.
Proof.
  unfold access_ok. rewrite forallb_forall. split.
  - intros H i Hi. specialize (H (Z.to_nat i)).
    rewrite Z2Nat.id in H by lia. apply H. apply in_seq. lia.
  - intros H j Hj. apply in_seq in Hj. apply H. lia.
Qed.

Lemma length_snapshot (m : iomem) :
  length (shared_ram_snapshot m) = Z.to_nat SZ_12K.
Proof. unfold shared_ram_snapshot. now rewrite length_map, length_seq. Qed.

(** [dev_read] on an attached device, with the sampling loop resolved. *)
Lemma dev_read_unfold
    (gdev : uio_pruss_dev) (w : world) (buffer len offset : Z) :
  attached gdev w -> message_sized w ->
  dev_read buffer len offset w =
  if access_ok (user_ok w) buffer SZ_12K
  then (0, set_user (store_bytes buffer (shared_ram_snapshot (io w)) (user w))
                    (set_message (shared_ram_snapshot (io w)) w))
  else (- EFAULT, set_message (shared_ram_snapshot (io w)) w).
Proof.
  intros Hw Hsz. unfold attached in Hw. unfold message_sized in Hsz.
  pose proof (length_snapshot (io w)) as Hlen.
  unfold dev_read, shared_ram_snapshot, copy_to_user in *. rewrite Hw. cbv zeta.
  rewrite Z.add_0_l.
  set (count := Z.to_nat SZ_12K) in *.
  rewrite read_loop by lia.
  set (snapshot := map _ (seq 0 count)) in *.
  assert (skipn count (message w) = []) as ->
      by (rewrite <- Hsz; apply skipn_all).
  rewrite app_nil_r. cbn [message set_message user_ok user].
  assert (firstn count snapshot = snapshot) as ->
      by (apply firstn_all2; lia).
  destruct (access_ok (user_ok w) buffer SZ_12K); reflexivity.
Qed.

Lemma dev_read_message
    (gdev : uio_pruss_dev) (w : world) (buffer len offset : Z) :
  attached gdev w -> message_sized w ->
  message (snd (dev_read buffer len offset w)) = shared_ram_snapshot (io w).
Proof.
  intros Hw Hsz. rewrite (dev_read_unfold gdev w buffer len offset Hw Hsz).
  now destruct (access_ok _ _ _).
Qed.

Lemma nth_snapshot (m : iomem) (i : Z) :
  0 <= i < SZ_12K ->
  nth (Z.to_nat i) (shared_ram_snapshot m) 0
  = ioread8 m (PRUSS_SHAREDRAM_BASE + i).
Proof.
  intros Hi. unfold shared_ram_snapshot.
  set (f := fun j : nat => ioread8 m (PRUSS_SHAREDRAM_BASE + Z.of_nat j)).
  rewrite (nth_indep _ 0 (f 0%nat)) by (rewrite length_map, length_seq; lia).
  rewrite map_nth, seq_nth by lia.
  unfold f. cbn [Nat.add]. now rewrite Z2Nat.id by lia.
Qed.

(** What a successful read hands to the caller. *)
Lemma dev_read_delivers
    (gdev : uio_pruss_dev) (w : world) (buffer len offset : Z) :
  attached gdev w -> message_sized w -> user_writable buffer SZ_12K w ->
  fst (dev_read buffer len offset w) = 0 /\
  (forall i, 0 <= i < SZ_12K ->
             user (snd (dev_read buffer len offset w)) (buffer + i)
             = ioread8 (io w) (PRUSS_SHAREDRAM_BASE + i)) /\
  (forall a, in_range buffer SZ_12K a = false ->
             user (snd (dev_read buffer len offset w)) a = user w a).
Proof.
  intros Hw Hsz Hok. rewrite (dev_read_unfold gdev w buffer len offset Hw Hsz).
  apply access_ok_spec in Hok. rewrite Hok.
  cbn [fst snd user set_user]. split; [reflexivity|].
  assert (Z.of_nat (length (shared_ram_snapshot (io w))) = SZ_12K) as Hlen
      by (rewrite length_snapshot; reflexivity).
  split.
  - intros i Hi. rewrite store_bytes_at, Hlen. unfold in_range.
    destruct (Z.leb_spec buffer (buffer + i)),
      (Z.ltb_spec (buffer + i) (buffer + SZ_12K)); try lia.
    cbn [andb]. replace (buffer + i - buffer) with i by lia.
    now apply nth_snapshot.
  - intros a Ha. rewrite store_bytes_at, Hlen. now rewrite Ha.
Qed.

(** C2, as the code has it.  Every read on an attached device replaces the
    whole message buffer with the 12288 bytes found at offsets 0 to 0x2fff
    of the shared RAM (the status and mode bytes at offsets 1 and 25 are
    part of that snapshot and are copied like any other byte, whatever they
    hold), leaves the region as it was, and, when the caller's buffer can be
    written, hands exactly those bytes to the caller and returns 0. *)
Theorem dev_read_snapshot
    (gdev : uio_pruss_dev) (w : world) (buffer len offset : Z) :
  attached gdev w -> message_sized w ->
  let r := dev_read buffer len offset w in
  message (snd r) = shared_ram_snapshot (io w) /\
  Z.of_nat (length (message (snd r))) = 12288 /\
  (forall a, io (snd r) a = io w a) /\
  (user_writable buffer SZ_12K w ->
   fst r = 0 /\
   forall i, 0 <= i < 12288 ->
             user (snd r) (buffer + i)
             = ioread8 (io w) (PRUSS_SHAREDRAM_BASE + i)).
Proof.
  intros Hw Hsz r. subst r. split; [|split; [|split]].
  - rewrite (dev_read_unfold gdev w buffer len offset Hw Hsz).
    now destruct (access_ok _ _ _).
  - rewrite (dev_read_unfold gdev w buffer len offset Hw Hsz).
    destruct (access_ok _ _ _); cbn [snd message set_user set_message];
      now rewrite (length_snapshot (io w)).
  - intros a. rewrite (dev_read_unfold gdev w buffer len offset Hw Hsz).
    now destruct (access_ok _ _ _).
  - intros Hok.
    destruct (dev_read_delivers gdev w buffer len offset Hw Hsz Hok)
      as (H0 & Hu & _).
    split; [exact H0|exact Hu].
Qed.

Lemma dev_read_snapshot_witness :
  message (snd (dev_read 0x1000 1 0 (world0 window_io)))
  = shared_ram_snapshot window_io /\
  user (snd (dev_read 0x1000 1 0 (world0 window_io))) (0x1000 + 0x1800) = 0xAA.
Proof.
  destruct (dev_read_snapshot gdev0 (world0 window_io) 0x1000 1 0
              eq_refl (repeat_length 0 (Z.to_nat SZ_12K)))
    as (Hmsg & _ & _ & Huser).
  split.
  - exact Hmsg.
  - destruct Huser as [_ Hu].
    + intros i _. reflexivity.
    + rewrite Hu by lia. reflexivity.
Defined.

(** C2, as the specification words it: the buffer receiving the window at
    offset 0x1800.  With 0xAA in that window and 0 below it, the buffer
    starts with 0 after a read. *)
Lemma dev_read_window_counterexample :
  message (snd (dev_read 0x1000 SZ_12K 0 (world0 window_io)))
  <> spec_inbound_window (io (world0 window_io)).
Proof.
  rewrite (dev_read_unfold gdev0 (world0 window_io) 0x1000 SZ_12K 0
             eq_refl (repeat_length 0 (Z.to_nat SZ_12K))).
  destruct (access_ok _ _ _); cbn [snd message set_user set_message];
    intros H; apply (f_equal (fun l => nth 0 l 0)) in H;
    vm_compute in H; discriminate H.
Qed.

(** C9.  Whatever length and file offset the caller passes, a read that
    succeeds stores 12288 bytes of the shared RAM in the caller's buffer,
    touches no other byte of the caller's memory, and returns 0; the result
    is the one obtained with length 0 and offset 0. *)
Theorem dev_read_ignores_len_and_offset
    (gdev : uio_pruss_dev) (w : world) (buffer : Z) :
  attached gdev w -> message_sized w -> user_writable buffer 12288 w ->
  forall len offset : Z,
    let r := dev_read buffer len offset w in
    fst r = 0 /\
    (forall i, 0 <= i < 12288 ->
               user (snd r) (buffer + i)
               = ioread8 (io w) (PRUSS_SHAREDRAM_BASE + i)) /\
    (forall a, in_range buffer 12288 a = false -> user (snd r) a = user w a) /\
    r = dev_read buffer 0 0 w.
Proof.
  intros Hw Hsz Hok len offset r. subst r.
  destruct (dev_read_delivers gdev w buffer len offset Hw Hsz Hok)
    as (H0 & Hu & Hfr).
  repeat split; assumption.
Qed.

Lemma dev_read_ignores_len_and_offset_witness :
  fst (dev_read 0x1000 1 7 (world0 window_io)) = 0 /\
  user (snd (dev_read 0x1000 1 7 (world0 window_io))) (0x1000 + 12287) = 0xAA.
Proof.
  destruct (dev_read_ignores_len_and_offset gdev0 (world0 window_io) 0x1000
              eq_refl (repeat_length 0 (Z.to_nat SZ_12K))
              (fun i _ => eq_refl) 1 7)
    as (H0 & Hu & _ & _).
  split.
  - exact H0.
  - rewrite Hu by lia. reflexivity.
Defined.

(** ** Write *)

Lemma bind_eval {A B : Type} (c : M A) (k : A -> M B) (w w' : world) (a : A) :
  c w = Some (a, w') -> bind c k w = k a w'.
Proof. intros H. unfold bind. now rewrite H. Qed.

Lemma ssize_of_small (z : Z) : 0 <= z < 2 ^ 31 -> ssize_of z = z.
Proof.
  intros H. unfold ssize_of, u32. rewrite Z.mod_small by lia.
  destruct (Z.ltb_spec z (2 ^ 31)); [reflexivity|lia].
Qed.


Lemma bind_rd8 {B : Type} (addr : Z) (k : Z -> M B) (w : world) :
  bind (rd8 addr) k w
  = k (ioread8 (io w) addr) (add_log (Rd8 addr (ioread8 (io w) addr)) w).
Proof. reflexivity. Qed.

Lemma bind_wr8 {B : Type} (v addr : Z) (k : unit -> M B) (w : world) :
  bind (wr8 v addr) k w
  = k tt (add_log (Wr8 (u8 v) addr) (set_io (iowrite8 v addr (io w)) w)).
Proof. reflexivity. Qed.

Lemma bind_wr32 {B : Type} (v addr : Z) (k : unit -> M B) (w : world) :
  bind (wr32 v addr) k w
  = k tt (add_log (Wr32 (u32 v) addr) (set_io (iowrite32 v addr (io w)) w)).
Proof. reflexivity. Qed.

Lemma bind_ret {A B : Type} (a : A) (k : A -> M B) (w : world) :
  bind (ret a) k w = k a w.
Proof. reflexivity. Qed.

(** Normal form of a world under the two fields [dev_write] updates. *)
Lemma add_log_set_wlog (e : mmio_step) (l : list mmio_step) (w : world) :
  add_log e (set_wlog l w) = set_wlog (l ++ [e]) w.
Proof. reflexivity. Qed.

Lemma set_io_set_wlog (f : iomem) (l : list mmio_step) (w : world) :
  set_io f (set_wlog l w) = set_wlog l (set_io f w).
Proof. reflexivity. Qed.

Lemma set_io_set_io (f g : iomem) (w : world) :
  set_io f (set_io g w) = set_io f w.
Proof. reflexivity. Qed.

Lemma set_wlog_set_wlog (l1 l2 : list mmio_step) (w : world) :
  set_wlog l1 (set_wlog l2 w) = set_wlog l1 w.
Proof. reflexivity. Qed.

Lemma io_set_wlog (l : list mmio_step) (w : world) : io (set_wlog l w) = io w.
Proof. reflexivity. Qed.

Lemma io_set_io (f : iomem) (w : world) : io (set_io f w) = f.
Proof. reflexivity. Qed.

Lemma user_set_wlog (l : list mmio_step) (w : world) :
  user (set_wlog l w) = user w.
Proof. reflexivity. Qed.

Lemma user_set_io (f : iomem) (w : world) : user (set_io f w) = user w.
Proof. reflexivity. Qed.

Lemma wlog_set_wlog (l : list mmio_step) (w : world) : wlog (set_wlog l w) = l.
Proof. reflexivity. Qed.

Lemma wlog_set_io (f : iomem) (w : world) : wlog (set_io f w) = wlog w.
Proof. reflexivity. Qed.

Ltac world_nf :=
  repeat first
    [ rewrite add_log_set_wlog | rewrite set_io_set_wlog
    | rewrite set_io_set_io | rewrite set_wlog_set_wlog
    | rewrite io_set_wlog | rewrite io_set_io
    | rewrite user_set_wlog | rewrite user_set_io
    | rewrite wlog_set_wlog | rewrite wlog_set_io ].

Section WriteTransaction.

Variable pru : nat -> iomem -> iomem.
Variable raised : nat -> option Z.

(** The environment neither reads nor writes the access log. *)
Lemma tick_set_wlog (l : list mmio_step) (w : world) :
  tick pru raised (set_wlog l w) = set_wlog l (tick pru raised w).
Proof.
  unfold tick. cbn [now _pdev io set_wlog set_io set_now].
  destruct (raised (now w)) as [irq|]; [|reflexivity].
  destruct (_pdev w) as [[gdev|]|]; try reflexivity.
  destruct ((hostirq_start gdev <=? irq)
            && (irq <? hostirq_start gdev + MAX_PRUSS_EVT)); [|reflexivity].
  unfold pruss_handler. cbv zeta. cbn [io set_io set_now set_wlog].
  match goal with |- context [if ?c then (IRQ_NONE, _) else _] => destruct c end;
    [reflexivity|].
  destruct (irq - hostirq_start gdev + 2 =? PRU_EVTOUT); reflexivity.
Qed.

Lemma ticks_set_wlog (l : list mmio_step) (n : nat) (w : world) :
  ticks pru raised n (set_wlog l w) = set_wlog l (ticks pru raised n w).
Proof.
  induction n as [|n IH]; [reflexivity|].
  change (ticks pru raised (S n) (set_wlog l w))
    with (tick pru raised (ticks pru raised n (set_wlog l w))).
  rewrite IH. apply tick_set_wlog.
Qed.

Lemma ticks_succ (n : nat) (w : world) :
  ticks pru raised (S n) w = ticks pru raised n (tick pru raised w).
Proof. unfold ticks. apply Nat.iter_succ_r. Qed.

Lemma forallb_seq_shift (f : nat -> bool) (n s : nat) :
  forallb f (seq (S s) n) = forallb (fun j => f (S j)) (seq s n).
Proof.
  revert s. induction n as [|n IH]; intros s; [reflexivity|].
  cbn [seq forallb]. now rewrite IH.
Qed.

Lemma forallb_pointwise (f g : nat -> bool) (l : list nat) :
  (forall j, f j = g j) -> forallb f l = forallb g l.
Proof.
  intros H. induction l as [|x l IH]; [reflexivity|].
  cbn [forallb]. now rewrite H, IH.
Qed.

Lemma first_after_succ (P : world -> bool) (n : nat) (w : world) :
  first_after pru raised P (S n) w
  = negb (P w) && first_after pru raised P n (tick pru raised w).
Proof.
  unfold first_after. cbn [seq forallb].
  rewrite forallb_seq_shift, ticks_succ, andb_assoc.
  f_equal. f_equal. apply forallb_pointwise. intros j. now rewrite ticks_succ.
Qed.

Lemma first_after_zero (P : world -> bool) (w : world) :
  first_after pru raised P 0 w = P w.
Proof. reflexivity. Qed.

(** The sleep ends at the first tick at which a completion is pending,
    and not before. *)
Lemma wait_returns (n : nat) :
  forall (fuel : nat) (w : world) (l : list mmio_step),
    first_after pru raised completion_pending n w = true -> (n < fuel)%nat ->
    wait_for_completion pru raised fuel (set_wlog l w) =
    Some (tt, set_wlog (l ++ [Woken])
                (set_completion (pred (intr_completion (ticks pru raised n w)))
                                (ticks pru raised n w))).
Proof.
  induction n as [|n IH]; intros fuel w l Hn Hfuel;
    (destruct fuel as [|fuel]; [lia|]).
  - rewrite first_after_zero in Hn. unfold completion_pending in Hn.
    cbn [wait_for_completion intr_completion set_wlog]. rewrite Hn.
    reflexivity.
  - rewrite first_after_succ in Hn. apply andb_prop in Hn as [H0 Hn].
    apply negb_true_iff in H0. unfold completion_pending in H0.
    cbn [wait_for_completion intr_completion set_wlog]. rewrite H0.
    rewrite tick_set_wlog, ticks_succ. apply IH; [exact Hn|lia].
Qed.

Lemma wait_blocks (n : nat) :
  forall (fuel : nat) (w : world) (l : list mmio_step),
    first_after pru raised completion_pending n w = true -> (fuel <= n)%nat ->
    wait_for_completion pru raised fuel (set_wlog l w) = None.
Proof.
  induction n as [|n IH]; intros fuel w l Hn Hfuel;
    (destruct fuel as [|fuel]; [reflexivity|]); [lia|].
  rewrite first_after_succ in Hn. apply andb_prop in Hn as [H0 Hn].
  apply negb_true_iff in H0. unfold completion_pending in H0.
  cbn [wait_for_completion intr_completion set_wlog]. rewrite H0.
  rewrite tick_set_wlog. apply IH; [exact Hn|lia].
Qed.

(** The spin ends at the first tick at which the status byte reads
    [OLD_MESSAGE]; every turn logs the byte it read. *)
Lemma spin_returns (k : nat) :
  forall (fuel : nat) (w : world) (l : list mmio_step),
    first_after pru raised status_is_old k w = true -> (k < fuel)%nat ->
    spin_until_old pru raised fuel (PRUSS_SHAREDRAM_BASE + STATUS_OFFSET)
                   (set_wlog l w) =
    Some (tt, set_wlog
                (l ++ map (fun j =>
                             Rd8 (PRUSS_SHAREDRAM_BASE + STATUS_OFFSET)
                                 (ioread8 (io (ticks pru raised j w))
                                          (PRUSS_SHAREDRAM_BASE + STATUS_OFFSET)))
                          (seq 0 (S k)))
                (ticks pru raised k w)).
Proof.
  induction k as [|k IH]; intros fuel w l Hk Hfuel;
    (destruct fuel as [|fuel]; [lia|]).
  - rewrite first_after_zero in Hk. unfold status_is_old in Hk.
    cbn [spin_until_old]. unfold bind, rd8.
    cbn [io set_wlog]. rewrite Hk. reflexivity.
  - rewrite first_after_succ in Hk. apply andb_prop in Hk as [H0 Hk].
    apply negb_true_iff in H0. unfold status_is_old in H0.
    cbn [spin_until_old]. unfold bind, rd8.
    cbn [io set_wlog]. rewrite H0. cbn [negb].
    unfold add_log. cbn [wlog set_wlog].
    change (set_wlog ?l1 (set_wlog ?l2 ?x)) with (set_wlog l1 x).
    rewrite tick_set_wlog, IH by (exact Hk || lia).
    f_equal. f_equal. rewrite ticks_succ. f_equal.
    rewrite <- app_assoc. f_equal.
    change (seq 0 (S (S k))) with (0%nat :: seq 1 (S k)).
    cbn [map app]. f_equal.
    rewrite <- seq_shift, map_map.
    apply map_ext. intros j. now rewrite ticks_succ.
Qed.

(** The copy loop of [dev_write]: one logged store per payload byte. *)
Lemma for_M_copy (buffer base : Z) (n : nat) (w : world) :
  for_M n (fun count =>
             b <- user_byte (buffer + count) ;; wr8 b (base + count)) w
  = Some (tt,
          set_wlog
            (wlog w ++ map (fun i => Wr8 (u8 (user w (buffer + Z.of_nat i)))
                                         (base + Z.of_nat i))
                           (seq 0 n))
            (set_io (for_upto n
                       (fun count m =>
                          iowrite8 (user w (buffer + count)) (base + count) m)
                       (io w)) w)).
Proof.
  induction n as [|n IH].
  - cbn. rewrite app_nil_r. now destruct w.
  - cbn [for_M]. unfold bind at 1. rewrite IH.
    unfold bind, user_byte, wr8, add_log.
    cbn [user io wlog set_wlog set_io for_upto].
    rewrite seq_S, map_app, app_assoc. reflexivity.
Qed.

(** The frame, as it lies in the region when the host starts to wait. *)
Lemma frame_io_contents (buffer len : Z) (w : world) :
  0 <= len < 2 ^ 32 ->
  let p := PRUSS_SHAREDRAM_BASE in
  ioread32 (frame_io buffer len w) (p + 0x64) = len /\
  (forall i, 0 <= i < len ->
             ioread8 (frame_io buffer len w) (p + 0x68 + i)
             = u8 (user w (buffer + i))) /\
  ioread8 (frame_io buffer len w) (p + 1) = 0xff /\
  (forall a, a <> p + 1 -> in_range (p + 0x64) (4 + len) a = false ->
             frame_io buffer len w a = io w a).
Proof.
  intros Hlen p. unfold frame_io, SHRAM_WRITE_OFFSET, STATUS_OFFSET.
  fold p.
  set (copy := fun (count : Z) (m : iomem) =>
                 iowrite8 (user w (buffer + count)) (p + 100 + 4 + count) m).
  assert (forall m a,
             for_upto (Z.to_nat len) copy m a =
             if in_range (p + 0x68) len a
             then u8 (user w (buffer + (a - (p + 0x68)))) else m a) as Hcopy.
  { intros m a. unfold copy.
    replace (p + 100 + 4) with (p + 0x68) by lia.
    rewrite (for_upto_store (fun c => user w (buffer + c))).
    now rewrite Z2Nat.id by lia. }
  assert (forall m a, in_range (p + 0x68) len a = false ->
                      ioread8 (for_upto (Z.to_nat len) copy m) a = ioread8 m a)
    as Hskip.
  { intros m a Ha. unfold ioread8. now rewrite Hcopy, Ha. }
  split; [|split; [|split]].
  - unfold ioread32. frame_byte.
    rewrite !Hskip
      by (unfold in_range;
          match goal with
          | |- (?x <=? ?y) && _ = false =>
            destruct (Z.leb_spec x y); [lia|reflexivity]
          end).
    change (ioread32 (iowrite32 len (p + 100) (io w)) (p + 100) = len).
    now apply ioread32_iowrite32_eq.
  - intros i Hi. frame_byte. unfold ioread8. rewrite Hcopy. unfold in_range.
    destruct (Z.leb_spec (p + 104) (p + 104 + i)),
      (Z.ltb_spec (p + 104 + i) (p + 104 + len)); try lia.
    cbn [andb]. rewrite u8_idem. do 2 f_equal. lia.
  - now rewrite ioread8_iowrite8_eq.
  - intros a Ha1 Ha2. frame_byte. rewrite Hcopy.
    unfold in_range in *.
    destruct (Z.leb_spec (p + 100) a), (Z.ltb_spec a (p + 100 + (4 + len)));
      try discriminate Ha2;
      destruct (Z.leb_spec (p + 104) a), (Z.ltb_spec a (p + 104 + len));
      try lia; cbn [andb]; apply iowrite32_outside; unfold in_range;
      destruct (Z.leb_spec (p + 100) a), (Z.ltb_spec a (p + 100 + 4));
      (reflexivity || lia).
Qed.

Lemma dev_write_prefix (gdev : uio_pruss_dev) (w : world) (fuel : nat)
    (buffer len offset : Z) :
  attached gdev w -> 0 <= len < 2 ^ 31 ->
  dev_write pru raised fuel buffer len offset w =
  (wait_for_completion pru raised fuel ;;;
   wr32 (Z.shiftl 1 PRU_ARM_INTERRUPT) (pintc_base gdev + PRU_INTC_SECR1_REG) ;;;
   wr32 (Z.shiftl 1 PRU_EVTOUT) (pintc_base gdev + PINTC_HIEISR) ;;;
   mode <- rd8 (PRUSS_SHAREDRAM_BASE + MODE_OFFSET) ;;
   (if mode =? CHAR_M
    then spin_until_old pru raised fuel (PRUSS_SHAREDRAM_BASE + STATUS_OFFSET)
    else ret tt) ;;;
   ret len)
    (set_wlog (wlog w
               ++ Rd8 (PRUSS_SHAREDRAM_BASE + MODE_OFFSET)
                      (ioread8 (io w) (PRUSS_SHAREDRAM_BASE + MODE_OFFSET))
                  :: frame_steps buffer len w)
              (frame_posted buffer len w)).
Proof.
  intros Hw Hlen. unfold attached in Hw. unfold dev_write. rewrite Hw.
  cbv zeta. rewrite ssize_of_small, !Z.add_0_l by exact Hlen.
  unfold frame_posted, frame_io, frame_steps.
  rewrite bind_rd8. unfold add_log.
  assert (forall b : bool, (if b then ret tt else ret tt) = @ret unit tt) as ->
      by (now intros []).
  rewrite bind_ret, bind_wr32. unfold add_log. world_nf.
  unfold bind at 1. rewrite for_M_copy. world_nf.
  rewrite bind_wr8. unfold add_log. world_nf.
  unfold u32. rewrite Z.mod_small by lia.
  rewrite <- !app_assoc. reflexivity.
Qed.
(** C1.  On an attached device, for a payload of [len] bytes at [buffer]
    ([len] below 2^31, as the VFS guarantees), when the environment releases
    the completion [n] ticks after the frame is posted and, in master mode,
    the status byte first reads 0x55 [k] ticks after the wake-up, [dev_write]
    returns [len] and its device accesses are, in order: a read of the mode
    byte; the length as one 32-bit little-endian store at offset 0x64; the
    payload bytes from offset 0x68; 0xff in the status byte at offset 1; the
    wait for the completion; the store of [1 << 20] to the event-clear
    register [PRU_INTC_SECR1_REG]; the store of [1 << 3] to the enable-set
    register [PINTC_HIEISR]; a read of the mode byte at offset 25; and, when
    that byte is ['M'], reads of the status byte, once per tick, up to and
    including the first that returns 0x55.  The frame is in the region when
    the wait starts, the call cannot return before the completion is
    released, and in master mode the status reads 0x55 on return.

    The event line is not re-enabled.  The line whose interrupt releases the
    completion is disabled by [pruss_handler] with its index, 3, stored in
    [PINTC_HIDISR]; [dev_write] stores the mask of event 3, the value 8, in
    the sibling register [PINTC_HIEISR], which takes an index as well.  With
    the enable register driven by index, the line the handler disabled is
    still disabled when [dev_write] has re-armed, and line 8 is enabled in
    its place; storing the index 3 would enable it. *)
Theorem dev_write_transaction
    (gdev : uio_pruss_dev) (w : world) (buffer len offset : Z)
    (n k fuel : nat) :
  attached gdev w ->
  0 <= len < 2 ^ 31 ->
  let p := PRUSS_SHAREDRAM_BASE in
  let w1 := frame_posted buffer len w in
  first_after pru raised completion_pending n w1 = true ->
  let w3 := rearmed gdev (ticks pru raised n w1) in
  let mode := ioread8 (io w3) (p + 25) in
  (mode = CHAR_M -> first_after pru raised status_is_old k w3 = true) ->
  (n + k < fuel)%nat ->
  let polls :=
    if mode =? CHAR_M
    then map (fun j => Rd8 (p + 1) (ioread8 (io (ticks pru raised j w3)) (p + 1)))
             (seq 0 (S k))
    else [] in
  let w' := if mode =? CHAR_M then ticks pru raised k w3 else w3 in
  dev_write pru raised fuel buffer len offset w =
  Some (len,
        set_wlog (wlog w
                  ++ [Rd8 (p + 25) (ioread8 (io w) (p + 25))]
                  ++ frame_steps buffer len w
                  ++ rearm_steps gdev
                  ++ [Rd8 (p + 25) mode]
                  ++ polls) w') /\
  (ioread32 (io w1) (p + 0x64) = len /\
   (forall i, 0 <= i < len ->
              ioread8 (io w1) (p + 0x68 + i) = u8 (user w (buffer + i))) /\
   ioread8 (io w1) (p + 1) = 0xff /\
   (forall a, a <> p + 1 -> in_range (p + 0x64) (4 + len) a = false ->
              io w1 a = io w a)) /\
  (forall fuel', (fuel' <= n)%nat ->
                 dev_write pru raised fuel' buffer len offset w = None) /\
  (mode = CHAR_M -> ioread8 (io w') (p + 1) = 0x55) /\
  (ioread32 (io w3) (pintc_base gdev + PINTC_HIEISR) = 8 /\
   nth 2 (rearm_steps gdev) Woken = Wr32 8 (pintc_base gdev + PINTC_HIEISR) /\
   rearm_steps gdev <> spec_rearm_steps gdev /\
   (forall w0 : world,
       let h := pruss_handler (hostirq_start gdev + 1) gdev w0 in
       fst h = IRQ_HANDLED ->
       intr_completion (snd h) = S (intr_completion w0) /\
       ioread32 (io (snd h)) (pintc_base gdev + PINTC_HIDISR) = 3) /\
   (forall hier : Z,
       let disabled := hier_step gdev hier (disable_step gdev 3) in
       Z.testbit disabled 3 = false /\
       Z.testbit (hier_after gdev (rearm_steps gdev) disabled) 3 = false /\
       Z.testbit (hier_after gdev (rearm_steps gdev) disabled) 8 = true /\
       Z.testbit (hier_after gdev (spec_rearm_steps gdev) disabled) 3 = true)).
Proof.
  intros Hw Hlen p w1 Hn w3 mode Hk Hfuel polls w'.
  split; [|split; [|split; [|split]]].
  - rewrite (dev_write_prefix gdev w fuel buffer len offset Hw Hlen).
    fold w1.
    erewrite bind_eval by (apply wait_returns; [exact Hn|lia]).
    erewrite bind_eval by reflexivity.
    erewrite bind_eval by reflexivity.
    erewrite bind_eval by reflexivity.
    set (l3 := ((((wlog w
                   ++ Rd8 (PRUSS_SHAREDRAM_BASE + MODE_OFFSET)
                          (ioread8 (io w) (PRUSS_SHAREDRAM_BASE + MODE_OFFSET))
                      :: frame_steps buffer len w)
                  ++ [Woken])
                 ++ [Wr32 (u32 (Z.shiftl 1 PRU_ARM_INTERRUPT))
                          (pintc_base gdev + PRU_INTC_SECR1_REG)])
                ++ [Wr32 (u32 (Z.shiftl 1 PRU_EVTOUT))
                         (pintc_base gdev + PINTC_HIEISR)])
               ++ [Rd8 (PRUSS_SHAREDRAM_BASE + MODE_OFFSET) mode]).
    match goal with
    | |- _ = ?rhs =>
      change (((if mode =? CHAR_M
                then spin_until_old pru raised fuel
                                    (PRUSS_SHAREDRAM_BASE + STATUS_OFFSET)
                else ret tt) ;;; ret len) (set_wlog l3 w3) = rhs)
    end.
    assert (l3 = wlog w ++ [Rd8 (p + 25) (ioread8 (io w) (p + 25))]
                 ++ frame_steps buffer len w ++ rearm_steps gdev
                 ++ [Rd8 (p + 25) mode]) as ->
        by (unfold l3; rewrite <- !app_assoc; reflexivity).
    subst polls w'. destruct (mode =? CHAR_M) eqn:Em.
    + erewrite bind_eval
        by (apply spin_returns; [apply Hk; now apply Z.eqb_eq|lia]).
      unfold ret. do 3 f_equal; rewrite <- ?app_assoc; reflexivity.
    + erewrite bind_eval by reflexivity.
      unfold ret. do 3 f_equal; rewrite <- ?app_assoc; reflexivity.
  - apply frame_io_contents. lia.
  - intros fuel' Hfuel'.
    rewrite (dev_write_prefix gdev w fuel' buffer len offset Hw Hlen).
    unfold bind at 1. fold w1. now rewrite (wait_blocks n).
  - intros Hm. subst w'. apply Z.eqb_eq in Hm as Hm'. rewrite Hm'.
    specialize (Hk Hm). unfold first_after in Hk.
    apply andb_prop in Hk as [_ Hk]. unfold status_is_old in Hk.
    now apply Z.eqb_eq in Hk.
  - split; [|split; [|split; [|split]]].
    + unfold w3, rearmed, rearm_io. cbn [io set_io].
      now apply ioread32_iowrite32_eq.
    + reflexivity.
    + unfold rearm_steps, spec_rearm_steps. intros H.
      injection H as H. discriminate H.
    + intros w0 h. exact (pruss_handler_evtout gdev w0).
    + intros hier. exact (hier_after_rearm gdev hier).
Qed.
End WriteTransaction.

Lemma dev_write_transaction_witness :
  exists w',
    dev_write pru0 raised0 4 0x1000 3 0 (world0 master_io) = Some (3, w') /\
    wlog w' =
    [ Rd8 0x10019 77; Wr32 3 0x10064;
      Wr8 80 0x10068; Wr8 81 0x10069; Wr8 82 0x1006a; Wr8 0xff 0x10001;
      Woken; Wr32 0x100000 0x20280; Wr32 8 0x20034;
      Rd8 0x10019 77; Rd8 0x10001 0xff; Rd8 0x10001 0xff; Rd8 0x10001 0x55 ] /\
    ioread32 (io (snd (pruss_handler 21 gdev0 (world0 master_io)))) 0x20038 = 3 /\
    Z.testbit (hier_after gdev0 (rearm_steps gdev0)
                 (hier_step gdev0 0xff (disable_step gdev0 3))) 3 = false.
Proof.
  destruct (dev_write_transaction pru0 raised0 gdev0 (world0 master_io)
              0x1000 3 0 1 2 4) as (H & _ & _ & _ & _ & _ & _ & Hh & Hr).
  - reflexivity.
  - lia.
  - vm_compute. reflexivity.
  - intros _. vm_compute. reflexivity.
  - lia.
  - eexists. split; [exact H|]. split; [vm_compute; reflexivity|]. split.
    + apply (Hh (world0 master_io)). vm_compute. reflexivity.
    + apply (Hr 0xff).
Defined.

(** * Further properties of the driver *)

(** ** Sync helpers *)

(** X1.  [__dev_set_sync_stop] succeeds exactly when the mode byte reads
    ['M']: it then returns 0 and clears the byte at offset 5, changing
    nothing else; otherwise it returns [-EINVAL] and the region is the one it
    was given. *)
Theorem sync_stop_contract (p : Z) (m : iomem) :
  (ioread8 m (p + 25) = CHAR_M ->
   fst (__dev_set_sync_stop p m) = 0 /\
   ioread8 (snd (__dev_set_sync_stop p m)) (p + 5) = 0 /\
   forall a, a <> p + 5 -> snd (__dev_set_sync_stop p m) a = m a) /\
  (ioread8 m (p + 25) <> CHAR_M ->
   __dev_set_sync_stop p m = (- EINVAL, m)).
Proof.
  unfold __dev_set_sync_stop, MODE_OFFSET. split.
  - intros ->. rewrite Z.eqb_refl. cbn [negb fst snd].
    split; [reflexivity|]. split.
    + now rewrite ioread8_iowrite8_eq.
    + intros a Ha. now frame_byte.
  - intros Hne. apply Z.eqb_neq in Hne. now rewrite Hne.
Qed.

Lemma sync_stop_contract_witness :
  ioread8 (snd (__dev_set_sync_stop PRUSS_SHAREDRAM_BASE master_io))
          (PRUSS_SHAREDRAM_BASE + 5) = 0 /\
  __dev_set_sync_stop PRUSS_SHAREDRAM_BASE ones_io = (- EINVAL, ones_io).
Proof.
  destruct (sync_stop_contract PRUSS_SHAREDRAM_BASE master_io) as [Hm _].
  destruct (sync_stop_contract PRUSS_SHAREDRAM_BASE ones_io) as [_ Hs].
  split.
  - apply Hm. reflexivity.
  - apply Hs. vm_compute. discriminate.
Defined.

(** X2.  [__dev_set_sync_step] returns 0 and leaves the seven bytes
    06 ff 50 00 01 0c a4 at offsets 50 to 56 whatever the region held, changes
    no other byte, and running it again changes nothing. *)
Theorem sync_step_program (p : Z) (m : iomem) :
  fst (__dev_set_sync_step p m) = 0 /\
  map (fun i => ioread8 (snd (__dev_set_sync_step p m)) (p + 50 + i))
      [0; 1; 2; 3; 4; 5; 6]
  = [0x06; 0xff; 0x50; 0x00; 0x01; 0x0c; 0xa4] /\
  (forall a, in_range (p + 50) 7 a = false ->
             snd (__dev_set_sync_step p m) a = m a) /\
  (forall a, snd (__dev_set_sync_step p (snd (__dev_set_sync_step p m))) a
             = snd (__dev_set_sync_step p m) a).
Proof.
  unfold __dev_set_sync_step, SYNC_STEP_OFFSET. cbn [fst snd map].
  split; [reflexivity|]. split; [|split].
  - replace (p + 50 + 0) with (p + 50) by lia.
    repeat (f_equal; [frame_byte; now rewrite ioread8_iowrite8_eq|]).
    f_equal. now rewrite ioread8_iowrite8_eq.
  - intros a Ha. unfold in_range in Ha.
    destruct (Z.leb_spec (p + 50) a), (Z.ltb_spec a (p + 50 + 7));
      try discriminate Ha; now frame_byte.
  - intros a. unfold iowrite8.
    repeat match goal with
           | |- context [a =? ?x] => destruct (Z.eqb_spec a x)
           end; reflexivity.
Qed.

(** X3.  [__dev_set_sync_counter] returns 0 and stores the low 16 bits of
    its argument, little-endian, at offsets 80 and 81; no other byte
    changes, and the bits above the sixteenth are dropped. *)
Theorem sync_counter_store (p n : Z) (m : iomem) :
  fst (__dev_set_sync_counter p n m) = 0 /\
  ioread8 (snd (__dev_set_sync_counter p n m)) (p + 80)
  + 2 ^ 8 * ioread8 (snd (__dev_set_sync_counter p n m)) (p + 81)
  = n mod 2 ^ 16 /\
  (forall a, a <> p + 80 -> a <> p + 81 ->
             snd (__dev_set_sync_counter p n m) a = m a) /\
  (forall a, snd (__dev_set_sync_counter p (n + 2 ^ 16) m) a
             = snd (__dev_set_sync_counter p n m) a).
Proof.
  unfold __dev_set_sync_counter, iowrite16, MODE_COUNTER_OFFSET.
  cbn [fst snd]. replace (p + 80 + 1) with (p + 81) by lia.
  split; [reflexivity|]. split; [|split].
  - frame_byte. rewrite !ioread8_iowrite8_eq. unfold u8.
    change 0xff with (Z.ones 8). rewrite !Z.land_ones, Z.shiftr_div_pow2 by lia.
    change (2 ^ 8) with 256. change (2 ^ 16) with 65536.
    Z.div_mod_to_equations. lia.
  - intros a H1 H2. now frame_byte.
  - intros a. unfold iowrite8.
    destruct (Z.eqb_spec a (p + 81)); [|destruct (Z.eqb_spec a (p + 80))];
      try reflexivity; unfold u8; change 0xff with (Z.ones 8);
      rewrite !Z.land_ones, ?Z.shiftr_div_pow2 by lia;
      change (2 ^ 8) with 256; change (2 ^ 16) with 65536;
      Z.div_mod_to_equations; lia.
Qed.

(** ** Hardware address *)

(** X4.  [__dev_get_hw_addr] returns the five sampled pins as a 5-bit
    number: bit 0 is P8_31, bit 1 P8_32, bit 2 P8_33, bit 3 P8_34, bit 4
    P8_35; the result is between 0 and 31 and no other pin matters. *)
Theorem hw_addr_bits (pins : Z -> bool) :
  __dev_get_hw_addr pins = pins_value pins /\
  0 <= __dev_get_hw_addr pins < 32 /\
  Z.testbit (__dev_get_hw_addr pins) 0 = pins GPIO_P8_31 /\
  Z.testbit (__dev_get_hw_addr pins) 1 = pins GPIO_P8_32 /\
  Z.testbit (__dev_get_hw_addr pins) 2 = pins GPIO_P8_33 /\
  Z.testbit (__dev_get_hw_addr pins) 3 = pins GPIO_P8_34 /\
  Z.testbit (__dev_get_hw_addr pins) 4 = pins GPIO_P8_35.
Proof.
  unfold __dev_get_hw_addr, pins_value.
  destruct (pins GPIO_P8_31), (pins GPIO_P8_32), (pins GPIO_P8_33),
    (pins GPIO_P8_34), (pins GPIO_P8_35);
    repeat split; (reflexivity || (cbn; lia)).
Qed.

(** ** Control commands as a whole *)

Lemma control_block_outside (a : Z) :
  in_control_block a = false ->
  a < PRUSS_SHAREDRAM_BASE \/ PRUSS_SHAREDRAM_BASE + 100 <= a.
Proof.
  unfold in_control_block, in_range.
  destruct (Z.leb_spec PRUSS_SHAREDRAM_BASE a),
    (Z.ltb_spec a (PRUSS_SHAREDRAM_BASE + 100)); cbn [andb]; intros Hb;
    try discriminate Hb; lia.
Qed.

Lemma config_baudrate_frame (p rate : Z) (m : iomem) (a : Z) :
  a < p \/ p + 100 <= a -> snd (__dev_config_baudrate p rate m) a = m a.
Proof.
  intros Ha. unfold __dev_config_baudrate.
  destruct (baudrate_switch rate) as [[[[c l] h] ns]|]; [|reflexivity].
  cbn [snd].
  unfold BAUD_BRGCONFIG_OFFSET, BAUD_LSB_OFFSET, BAUD_MSB_OFFSET,
    BAUD_LENGTH_OFFSET.
  now frame_byte.
Qed.

(** Every outcome of a control command on a bound device: either nothing
    changes, or only the region does, and only inside the control block. *)
Lemma ioctl_outcome (gdev : uio_pruss_dev) (w : world) (cmd arg : Z) :
  attached gdev w ->
  exists (ret : Z) (m' : iomem),
    dev_unlocked_ioctl cmd arg w = (ret, set_io m' w) /\
    (forall a, in_control_block a = false -> m' a = io w a) /\
    (ret = 0 \/ ret = - EINVAL).
Proof.
  intros Hw. unfold attached in Hw. unfold dev_unlocked_ioctl. rewrite Hw.
  cbv zeta. rewrite Z.add_0_l.
  assert (forall ret : Z, (ret, w) = (ret, set_io (io w) w)) as Hsame
      by (intros ret; now destruct w).
  set (P := PRUSS_SHAREDRAM_BASE) in *.
  destruct (cmd =? PRUSS_MODE).
  { destruct ((arg =? CHAR_M) || (arg =? CHAR_S)) eqn:Harg.
    - eexists _, _. split; [reflexivity|]. split; [|now left].
      intros a Ha. apply control_block_outside in Ha. fold P in Ha.
      unfold __dev_set_sync_stop, MODE_OFFSET, STATUS_OFFSET.
      destruct (negb _), (arg =? CHAR_S); cbn [snd]; now frame_byte.
    - exists (- EINVAL), (io w). split; [apply Hsame|]. split; [reflexivity|now right]. }
  destruct (cmd =? PRUSS_BAUDRATE).
  { eexists _, _. split; [reflexivity|]. split.
    - intros a Ha. apply control_block_outside in Ha.
      now apply config_baudrate_frame.
    - unfold __dev_config_baudrate.
      destruct (baudrate_switch arg) as [[[[c l] h] ns]|]; [now left|now right]. }
  destruct (cmd =? PRUSS_SYNC_STEP).
  { eexists _, _. split; [reflexivity|]. split; [|now left].
    intros a Ha. apply control_block_outside in Ha. fold P in Ha.
    unfold __dev_set_sync_step, SYNC_STEP_OFFSET. cbn [snd]. now frame_byte. }
  destruct (cmd =? PRUSS_CLEAN).
  { eexists _, _. split; [reflexivity|]. split; [|now left].
    intros a Ha. unfold __dev_clean_sram. cbn [snd].
    rewrite (for_upto_zero P 100). unfold in_control_block in Ha. fold P in Ha.
    change (Z.of_nat 100) with 100. now rewrite Ha. }
  destruct (cmd =? PRUSS_SET_COUNTER).
  { eexists _, _. split; [reflexivity|]. split; [|now left].
    intros a Ha. apply control_block_outside in Ha. fold P in Ha.
    unfold __dev_set_sync_counter, iowrite16, MODE_COUNTER_OFFSET. cbn [snd].
    now frame_byte. }
  destruct (cmd =? PRUSS_GET_HW_ADDRESS).
  { eexists _, _. split; [reflexivity|]. split; [|now left].
    intros a Ha. apply control_block_outside in Ha. fold P in Ha.
    unfold HW_ADDR_OFFSET. now frame_byte. }
  destruct (cmd =? PRUSS_TIMEOUT).
  { eexists _, _. split; [reflexivity|]. split; [|now left].
    intros a Ha. apply control_block_outside in Ha. fold P in Ha.
    unfold TIMEOUT_OFFSET. now frame_byte. }
  exists (- EINVAL), (io w). split; [apply Hsame|]. split; [reflexivity|now right].
Qed.

(** X5.  Every control command on a bound device returns 0 or [-EINVAL],
    leaves every byte outside the 100-byte control block at the start of the
    shared RAM as it was (so neither the outbound frame from offset 0x64 nor
    the interrupt controller is ever written), and changes nothing of the
    driver state but the region. *)
Theorem ioctl_confined (gdev : uio_pruss_dev) (w : world) (cmd arg : Z) :
  attached gdev w ->
  let r := dev_unlocked_ioctl cmd arg w in
  (fst r = 0 \/ fst r = - EINVAL) /\
  (forall a, in_control_block a = false -> io (snd r) a = io w a) /\
  snd r = set_io (io (snd r)) w.
Proof.
  intros Hw r. subst r.
  destruct (ioctl_outcome gdev w cmd arg Hw) as (ret & m' & -> & Hfr & Hret).
  cbn [fst snd io set_io]. repeat split; assumption.
Qed.

Lemma ioctl_confined_witness :
  io (snd (dev_unlocked_ioctl PRUSS_BAUDRATE 9600 (world0 ones_io)))
     (PRUSS_SHAREDRAM_BASE + 0x64) = 1.
Proof.
  destruct (ioctl_confined gdev0 (world0 ones_io) PRUSS_BAUDRATE 9600 eq_refl)
    as (_ & Hfr & _).
  rewrite Hfr; reflexivity.
Defined.

(** X6.  A command number outside 10..16 is rejected with [-EINVAL] and
    changes nothing. *)
Theorem ioctl_unknown_command (gdev : uio_pruss_dev) (w : world) (cmd arg : Z) :
  attached gdev w -> cmd < 10 \/ 16 < cmd ->
  dev_unlocked_ioctl cmd arg w = (- EINVAL, w).
Proof.
  intros Hw Hcmd. unfold attached in Hw. unfold dev_unlocked_ioctl. rewrite Hw.
  unfold PRUSS_MODE, PRUSS_BAUDRATE, PRUSS_SYNC_STEP, PRUSS_CLEAN,
    PRUSS_SET_COUNTER, PRUSS_GET_HW_ADDRESS, PRUSS_TIMEOUT.
  repeat match goal with
         | |- context [cmd =? ?c] =>
           destruct (Z.eqb_spec cmd c); [lia|]
         end.
  reflexivity.
Qed.

Lemma ioctl_unknown_command_witness :
  dev_unlocked_ioctl 17 5 (world0 ones_io) = (- EINVAL, world0 ones_io).
Proof.
  apply (ioctl_unknown_command gdev0 (world0 ones_io) 17 5 eq_refl). lia.
Defined.

Lemma attached_after_ioctl (gdev : uio_pruss_dev) (w : world) (cmd arg : Z) :
  attached gdev w -> attached gdev (snd (dev_unlocked_ioctl cmd arg w)).
Proof.
  intros Hw.
  destruct (ioctl_outcome gdev w cmd arg Hw) as (ret & m' & -> & _).
  exact Hw.
Qed.

(** X7.  Clean erases whatever an earlier control command wrote: Clean after
    any command leaves the region that Clean alone would have left. *)
Theorem clean_erases_commands (gdev : uio_pruss_dev) (w : world) (cmd arg : Z) :
  attached gdev w ->
  forall a,
    io (snd (dev_unlocked_ioctl PRUSS_CLEAN 0
               (snd (dev_unlocked_ioctl cmd arg w)))) a
    = io (snd (dev_unlocked_ioctl PRUSS_CLEAN 0 w)) a.
Proof.
  intros Hw a.
  rewrite (ioctl_clean gdev _ 0 (attached_after_ioctl gdev w cmd arg Hw)).
  rewrite (ioctl_clean gdev w 0 Hw).
  destruct (ioctl_outcome gdev w cmd arg Hw) as (ret & m' & -> & Hfr & _).
  cbn [snd io set_io __dev_clean_sram].
  rewrite !(for_upto_zero _ 100). change (Z.of_nat 100) with 100.
  fold (in_control_block a).
  destruct (in_control_block a) eqn:Ha; [reflexivity|now apply Hfr].
Qed.

Lemma clean_erases_commands_witness :
  io (snd (dev_unlocked_ioctl PRUSS_CLEAN 0
             (snd (dev_unlocked_ioctl PRUSS_MODE CHAR_M (world0 ones_io)))))
     (PRUSS_SHAREDRAM_BASE + 25) = 0.
Proof.
  rewrite (clean_erases_commands gdev0 (world0 ones_io) PRUSS_MODE CHAR_M eq_refl).
  reflexivity.
Defined.

(** X8.  The hardware-address command returns 0, not the address: it stores
    the 5-bit pin value in the byte at offset 24 and changes no other byte. *)
Theorem ioctl_hw_address (gdev : uio_pruss_dev) (w : world) (arg : Z) :
  attached gdev w ->
  let r := dev_unlocked_ioctl PRUSS_GET_HW_ADDRESS arg w in
  fst r = 0 /\
  ioread8 (io (snd r)) (PRUSS_SHAREDRAM_BASE + 24) = pins_value (pins w) /\
  (forall a, a <> PRUSS_SHAREDRAM_BASE + 24 -> io (snd r) a = io w a).
Proof.
  intros Hw r. subst r. unfold attached in Hw.
  unfold dev_unlocked_ioctl. rewrite Hw.
  change (PRUSS_GET_HW_ADDRESS =? PRUSS_MODE) with false.
  change (PRUSS_GET_HW_ADDRESS =? PRUSS_BAUDRATE) with false.
  change (PRUSS_GET_HW_ADDRESS =? PRUSS_SYNC_STEP) with false.
  change (PRUSS_GET_HW_ADDRESS =? PRUSS_CLEAN) with false.
  change (PRUSS_GET_HW_ADDRESS =? PRUSS_SET_COUNTER) with false.
  change (PRUSS_GET_HW_ADDRESS =? PRUSS_GET_HW_ADDRESS) with true.
  cbv iota zeta. cbn [fst snd io set_io]. rewrite Z.add_0_l.
  unfold HW_ADDR_OFFSET.
  destruct (hw_addr_bits (pins w)) as (Hval & Hrange & _).
  split; [reflexivity|]. split.
  - rewrite ioread8_iowrite8_eq, u8_small by lia. exact Hval.
  - intros a Ha. now frame_byte.
Qed.

Lemma ioctl_hw_address_witness :
  fst (dev_unlocked_ioctl PRUSS_GET_HW_ADDRESS 0
         (with_pins pins_10101 (world0 ones_io))) = 0 /\
  ioread8 (io (snd (dev_unlocked_ioctl PRUSS_GET_HW_ADDRESS 0
                      (with_pins pins_10101 (world0 ones_io)))))
          (PRUSS_SHAREDRAM_BASE + 24) = 21.
Proof.
  destruct (ioctl_hw_address gdev0 (with_pins pins_10101 (world0 ones_io)) 0
              eq_refl) as (H0 & Haddr & _).
  split; [exact H0|]. rewrite Haddr. reflexivity.
Defined.

(** ** Composition of control commands *)

Lemma iowrite8_eq (v a : Z) (m : iomem) : iowrite8 v a m a = u8 v.
Proof. unfold iowrite8. now rewrite Z.eqb_refl. Qed.

Lemma config_baudrate_frame6 (p rate : Z) (m : iomem) (a : Z) :
  a <> p + 2 -> a <> p + 3 -> a <> p + 4 ->
  a <> p + 26 -> a <> p + 27 -> a <> p + 28 ->
  snd (__dev_config_baudrate p rate m) a = m a.
Proof.
  intros H2 H3 H4 H26 H27 H28. unfold __dev_config_baudrate.
  destruct (baudrate_switch rate) as [[[[c l] h] ns]|]; [|reflexivity].
  cbn [snd].
  unfold BAUD_BRGCONFIG_OFFSET, BAUD_LSB_OFFSET, BAUD_MSB_OFFSET,
    BAUD_LENGTH_OFFSET.
  now frame_byte.
Qed.

(** X9.  The last supported rate wins: configuring a supported rate after
    any other configuration leaves the region that configuring it alone
    leaves, and an unsupported rate after a configuration fails and keeps
    that configuration. *)
Theorem config_baudrate_last_wins (p r1 r2 : Z) (m : iomem) :
  (In r2 supported_rates ->
   forall a,
     snd (__dev_config_baudrate p r2 (snd (__dev_config_baudrate p r1 m))) a
     = snd (__dev_config_baudrate p r2 m) a) /\
  (~ In r2 supported_rates ->
   __dev_config_baudrate p r2 (snd (__dev_config_baudrate p r1 m))
   = (- EINVAL, snd (__dev_config_baudrate p r1 m))).
Proof.
  split.
  - intros Hin a.
    set (m1 := snd (__dev_config_baudrate p r1 m)).
    assert (forall b, b <> p + 2 -> b <> p + 3 -> b <> p + 4 ->
                      b <> p + 26 -> b <> p + 27 -> b <> p + 28 ->
                      m1 b = m b) as Hm1
        by (intros b; apply config_baudrate_frame6).
    clearbody m1.
    unfold __dev_config_baudrate.
    destruct (baudrate_switch r2) as [[[[c l] h] ns]|] eqn:E.
    2:{ apply profile_of_supported in Hin.
        rewrite baudrate_switch_table in E.
        destruct (profile_of r2); [discriminate E|congruence]. }
    cbn [snd].
    unfold BAUD_BRGCONFIG_OFFSET, BAUD_LSB_OFFSET, BAUD_MSB_OFFSET,
      BAUD_LENGTH_OFFSET.
    replace (p + 26 + 1) with (p + 27) by lia.
    replace (p + 26 + 2) with (p + 28) by lia.
    destruct (Z.eq_dec a (p + 28)) as [->|N28];
      [frame_byte; now rewrite !iowrite8_eq|].
    destruct (Z.eq_dec a (p + 27)) as [->|N27];
      [frame_byte; now rewrite !iowrite8_eq|].
    destruct (Z.eq_dec a (p + 26)) as [->|N26];
      [frame_byte; now rewrite !iowrite8_eq|].
    destruct (Z.eq_dec a (p + 4)) as [->|N4];
      [frame_byte; now rewrite !iowrite8_eq|].
    destruct (Z.eq_dec a (p + 3)) as [->|N3];
      [frame_byte; now rewrite !iowrite8_eq|].
    destruct (Z.eq_dec a (p + 2)) as [->|N2];
      [frame_byte; now rewrite !iowrite8_eq|].
    frame_byte. now apply Hm1.
  - intros Hout. destruct (baudrate_switch_cases r2) as [E|E]; [|contradiction].
    unfold __dev_config_baudrate at 1. now rewrite E.
Qed.

Lemma config_baudrate_last_wins_witness :
  ioread8 (snd (__dev_config_baudrate 0 115200
                  (snd (__dev_config_baudrate 0 9600 ones_io)))) 4 = 0 /\
  fst (__dev_config_baudrate 0 7 (snd (__dev_config_baudrate 0 9600 ones_io)))
  = - EINVAL.
Proof.
  destruct (config_baudrate_last_wins 0 9600 115200 ones_io) as [Hin _].
  destruct (config_baudrate_last_wins 0 9600 7 ones_io) as [_ Hout].
  split.
  - unfold ioread8. rewrite Hin; [reflexivity|].
    unfold supported_rates. simpl. tauto.
  - rewrite Hout; [reflexivity|]. unfold supported_rates. simpl. lia.
Defined.

(** X10.  Going back to master mode does not reset the status: after
    SetMode('S') and then SetMode('M') the mode byte reads ['M'], the stop
    byte at offset 5 reads 0 and the status byte still reads 0x55; every
    other byte is as before the two commands. *)
Theorem set_mode_slave_then_master (gdev : uio_pruss_dev) (w : world) :
  attached gdev w ->
  let p := PRUSS_SHAREDRAM_BASE in
  let r := dev_unlocked_ioctl PRUSS_MODE CHAR_M
             (snd (dev_unlocked_ioctl PRUSS_MODE CHAR_S w)) in
  fst r = 0 /\
  ioread8 (io (snd r)) (p + 25) = CHAR_M /\
  ioread8 (io (snd r)) (p + 5) = 0 /\
  ioread8 (io (snd r)) (p + 1) = 0x55 /\
  (forall a, a <> p + 25 -> a <> p + 5 -> a <> p + 1 ->
             io (snd r) a = io w a).
Proof.
  intros Hw p r. subst r.
  rewrite (set_mode_slave gdev w Hw). cbn [snd].
  rewrite (set_mode_master gdev _ (attached_set_io gdev w _ Hw)).
  cbn [fst snd io set_io]. unfold p, MODE_OFFSET, STATUS_OFFSET.
  split; [reflexivity|]. split; [|split; [|split]].
  - frame_byte. now rewrite ioread8_iowrite8_eq.
  - now rewrite ioread8_iowrite8_eq.
  - frame_byte. now rewrite ioread8_iowrite8_eq.
  - intros a H25 H5 H1. now frame_byte.
Qed.

Lemma set_mode_slave_then_master_witness :
  ioread8 (io (snd (dev_unlocked_ioctl PRUSS_MODE CHAR_M
                      (snd (dev_unlocked_ioctl PRUSS_MODE CHAR_S
                              (world0 ones_io))))))
          (PRUSS_SHAREDRAM_BASE + 1) = 0x55.
Proof.
  exact (proj1 (proj2 (proj2 (proj2
           (set_mode_slave_then_master gdev0 (world0 ones_io) eq_refl))))).
Defined.

(** X11.  SetTimeout as the code encodes it: lane 0 receives the low byte
    of [arg * 66600]; lanes 1 to 3 receive 1 as soon as the scaled value
    exceeds 8, 16 and 24, so for every argument from 1 to 64488 (the scaled
    value then fits in 32 bits) they hold 1, 1, 1, and for 0 the four lanes
    hold 0. *)
Theorem timeout_lanes_as_coded (gdev : uio_pruss_dev) (w : world) (arg : Z) :
  attached gdev w -> 0 <= arg <= 64488 ->
  let r := dev_unlocked_ioctl PRUSS_TIMEOUT arg w in
  let flag := if arg =? 0 then 0 else 1 in
  fst r = 0 /\
  map (fun i => ioread8 (io (snd r)) (PRUSS_SHAREDRAM_BASE + 6 + i)) [0; 1; 2; 3]
  = [(arg * 66600) mod 256; flag; flag; flag].
Proof.
  intros Hw Harg r flag. subst r.
  destruct (ioctl_timeout gdev w arg Hw) as (H0 & L0 & L1 & L2 & L3).
  cbv zeta in *. split; [exact H0|]. cbn [map].
  replace (PRUSS_SHAREDRAM_BASE + 6 + 0) with (PRUSS_SHAREDRAM_BASE + 6) by lia.
  replace (PRUSS_SHAREDRAM_BASE + 6 + 1) with (PRUSS_SHAREDRAM_BASE + 7) by lia.
  replace (PRUSS_SHAREDRAM_BASE + 6 + 2) with (PRUSS_SHAREDRAM_BASE + 8) by lia.
  replace (PRUSS_SHAREDRAM_BASE + 6 + 3) with (PRUSS_SHAREDRAM_BASE + 9) by lia.
  rewrite L0, L1, L2, L3. unfold u32.
  rewrite Z.mod_small by lia.
  unfold u8. change 0xff with (Z.ones 8). rewrite Z.land_ones by lia.
  change (2 ^ 8) with 256. subst flag.
  destruct (Z.eqb_spec arg 0) as [->|Hne]; [reflexivity|].
  unfold int_of_bool.
  destruct (Z.ltb_spec 8 (arg * 66600)), (Z.ltb_spec 16 (arg * 66600)),
    (Z.ltb_spec 24 (arg * 66600)); (reflexivity || lia).
Qed.

Lemma timeout_lanes_as_coded_witness :
  map (fun i => ioread8 (io (snd (dev_unlocked_ioctl PRUSS_TIMEOUT 1000
                                    (world0 ones_io))))
                        (PRUSS_SHAREDRAM_BASE + 6 + i)) [0; 1; 2; 3]
  = [64; 1; 1; 1].
Proof.
  destruct (timeout_lanes_as_coded gdev0 (world0 ones_io) 1000 eq_refl)
    as [_ H]; [lia|].
  exact H.
Defined.

(** ** Session lock, continued *)

(** X12.  Release frees the lock whoever holds it, so an Open that follows
    a Release always succeeds; that Open discards every completion that was
    pending.  Neither operation touches the region, the message buffer or
    the caller's memory. *)
Theorem release_then_open (w : world) :
  let w1 := snd (dev_release w) in
  dev_open w1 = (0, init_completion (set_mutex true w)) /\
  intr_completion (snd (dev_open w1)) = 0%nat /\
  pruchar_mutex (snd (dev_open w1)) = true /\
  (forall a, io (snd (dev_open w1)) a = io w a) /\
  same_session (set_mutex true w) (snd (dev_open w1)).
Proof.
  unfold dev_release, dev_open, same_session. cbn. repeat split.
Qed.

(** ** Unbound device *)

(** X13.  With no platform device, or with a device that has no driver
    data, no file operation touches anything and none blocks: the control
    command and the write return [-EINVAL] in the first case and [-EFAULT] in
    the second, the read returns [-EINVAL] in both. *)
Theorem file_operations_unbound
    (pru : nat -> iomem -> iomem) (raised : nat -> option Z) (fuel : nat)
    (w : world) (cmd arg buffer len offset : Z) :
  (_pdev w = None ->
   dev_unlocked_ioctl cmd arg w = (- EINVAL, w) /\
   dev_read buffer len offset w = (- EINVAL, w) /\
   dev_write pru raised fuel buffer len offset w = Some (- EINVAL, w)) /\
  (_pdev w = Some None ->
   dev_unlocked_ioctl cmd arg w = (- EFAULT, w) /\
   dev_read buffer len offset w = (- EINVAL, w) /\
   dev_write pru raised fuel buffer len offset w = Some (- EFAULT, w)).
Proof.
  unfold dev_unlocked_ioctl, dev_read, dev_write.
  split; intros ->; repeat split.
Qed.

Lemma file_operations_unbound_witness :
  dev_write pru_idle raised_never 0 0x1000 3 0
            (with_pdev (Some None) (world0 ones_io))
  = Some (- EFAULT, with_pdev (Some None) (world0 ones_io)) /\
  dev_read 0x1000 3 0 (with_pdev (Some None) (world0 ones_io))
  = (- EINVAL, with_pdev (Some None) (world0 ones_io)).
Proof.
  destruct (file_operations_unbound pru_idle raised_never 0
              (with_pdev (Some None) (world0 ones_io)) 0 0 0x1000 3 0)
    as [_ H].
  destruct (H eq_refl) as (_ & Hr & Hw).
  split; assumption.
Defined.

(** ** Read, continued *)

(** X14.  A read wants all 12288 bytes of its destination writable,
    whatever length the caller asked for: when one of them is not, at any
    position [k] below 12288, the read returns [-EFAULT].  The region has
    been sampled all the same: the message buffer holds the snapshot, and
    the region is as it was. *)
Theorem dev_read_fault
    (gdev : uio_pruss_dev) (w : world) (buffer len offset k : Z) :
  attached gdev w -> message_sized w ->
  0 <= k < 12288 ->
  user_ok w (buffer + k) = false ->
  let r := dev_read buffer len offset w in
  fst r = - EFAULT /\
  message (snd r) = shared_ram_snapshot (io w) /\
  (forall a, io (snd r) a = io w a).
Proof.
  intros Hw Hsz Hk Hbad r. subst r.
  rewrite (dev_read_unfold gdev w buffer len offset Hw Hsz).
  destruct (access_ok (user_ok w) buffer SZ_12K) eqn:E.
  - apply access_ok_spec with (i := k) in E; [congruence|].
    unfold SZ_12K. lia.
  - cbn [fst snd message io set_message]. repeat split.
Qed.

Lemma dev_read_fault_witness :
  fst (dev_read 0x1000 1 0 (with_user_ok short_buffer_ok (world0 window_io)))
  = - EFAULT /\
  message (snd (dev_read 0x1000 1 0
                  (with_user_ok short_buffer_ok (world0 window_io))))
  = shared_ram_snapshot window_io.
Proof.
  destruct (dev_read_fault gdev0 (with_user_ok short_buffer_ok (world0 window_io))
              0x1000 1 0 16 eq_refl (repeat_length 0 (Z.to_nat SZ_12K)))
    as (Hret & Hmsg & _).
  - lia.
  - reflexivity.
  - split; assumption.
Defined.

Lemma read_loop_message_only (p : Z) (n : nat) (w : world) :
  exists l,
    for_upto n
      (fun count w =>
         set_message (array_set (Z.to_nat count) (ioread8 (io w) (p + count))
                                (message w)) w) w
    = set_message l w.
Proof.
  induction n as [|n [l IH]].
  - exists (message w). now destruct w.
  - cbn [for_upto]. rewrite IH. eexists. reflexivity.
Qed.

(** X15.  A read changes nothing but the message buffer and the caller's
    memory, whatever its outcome: the region (status byte included, so
    nothing is acknowledged to the coprocessor), the completion count and
    the lock are as before. *)
Theorem dev_read_only_copies (w : world) (buffer len offset : Z) :
  let r := dev_read buffer len offset w in
  (forall a, io (snd r) a = io w a) /\
  intr_completion (snd r) = intr_completion w /\
  pruchar_mutex (snd r) = pruchar_mutex w /\
  snd r = set_user (user (snd r)) (set_message (message (snd r)) w).
Proof.
  unfold dev_read.
  destruct (_pdev w) as [[gdev|]|].
  - cbv zeta.
    destruct (read_loop_message_only (0 + PRUSS_SHAREDRAM_BASE)
                                     (Z.to_nat SZ_12K) w) as [l ->].
    unfold copy_to_user. cbn [message user user_ok set_message].
    destruct (access_ok (user_ok w) buffer SZ_12K); cbn [fst snd].
    + change (negb (0 =? 0)) with false. cbn [snd]. repeat split.
    + change (negb (SZ_12K =? 0)) with true. cbn [snd]. repeat split.
  - cbn [snd]. destruct w. repeat split.
  - cbn [snd]. destruct w. repeat split.
Qed.

(** ** Write, continued *)

Section WriteEnvironment.

Variable pru : nat -> iomem -> iomem.
Variable raised : nat -> option Z.

(** The environment owns the region and the completion count only. *)
Lemma tick_keeps (w : world) :
  same_session w (tick pru raised w) /\
  wlog (tick pru raised w) = wlog w /\
  now (tick pru raised w) = S (now w).
Proof.
  unfold tick, same_session.
  cbn [now _pdev io set_io set_now].
  destruct (raised (now w)) as [irq|]; [|now repeat split].
  destruct (_pdev w) as [[gdev|]|] eqn:E; rewrite <- ?E;
    [|now repeat split|now repeat split].
  destruct ((hostirq_start gdev <=? irq)
            && (irq <? hostirq_start gdev + MAX_PRUSS_EVT));
    [|now repeat split].
  unfold pruss_handler. cbv zeta. cbn [io set_io set_now].
  match goal with |- context [if ?c then (IRQ_NONE, _) else _] => destruct c end;
    [now repeat split|].
  destruct (irq - hostirq_start gdev + 2 =? PRU_EVTOUT); now repeat split.
Qed.

Lemma ticks_keeps (n : nat) (w : world) :
  same_session w (ticks pru raised n w) /\
  wlog (ticks pru raised n w) = wlog w /\
  now (ticks pru raised n w) = (now w + n)%nat.
Proof.
  induction n as [|n IH].
  - unfold same_session. cbn. repeat split. lia.
  - change (ticks pru raised (S n) w)
      with (tick pru raised (ticks pru raised n w)).
    destruct IH as ((I1 & I2 & I3 & I4 & I5 & I6) & Il & In).
    destruct (tick_keeps (ticks pru raised n w))
      as ((T1 & T2 & T3 & T4 & T5 & T6) & Tl & Tn).
    unfold same_session. repeat split; try congruence. lia.
Qed.

(** Only the interrupt line [hostirq_start + 1], whose event index is
    [PRU_EVTOUT], can add a completion. *)
Lemma tick_completion (gdev : uio_pruss_dev) (w : world) :
  attached gdev w ->
  raised (now w) <> Some (hostirq_start gdev + 1) ->
  intr_completion (tick pru raised w) = intr_completion w.
Proof.
  intros Hw Hline. unfold attached in Hw. unfold tick.
  cbn [now _pdev io set_io set_now]. rewrite Hw.
  destruct (raised (now w)) as [irq|]; [|reflexivity].
  destruct ((hostirq_start gdev <=? irq)
            && (irq <? hostirq_start gdev + MAX_PRUSS_EVT)); [|reflexivity].
  unfold pruss_handler. cbv zeta. cbn [io set_io set_now].
  match goal with |- context [if ?c then (IRQ_NONE, _) else _] => destruct c end;
    [reflexivity|].
  unfold PRU_EVTOUT.
  destruct (Z.eqb_spec (irq - hostirq_start gdev + 2) 3) as [E|E];
    [|reflexivity].
  exfalso. apply Hline. f_equal. lia.
Qed.

Lemma ticks_completion (gdev : uio_pruss_dev) (n : nat) (w : world) :
  attached gdev w ->
  (forall t, raised t <> Some (hostirq_start gdev + 1)) ->
  intr_completion (ticks pru raised n w) = intr_completion w.
Proof.
  intros Hw Hline. induction n as [|n IH]; [reflexivity|].
  change (ticks pru raised (S n) w)
    with (tick pru raised (ticks pru raised n w)).
  rewrite (tick_completion gdev); [exact IH| |apply Hline].
  destruct (ticks_keeps n w) as ((H1 & _) & _).
  unfold attached in *. congruence.
Qed.

Lemma wait_never (fuel : nat) :
  forall (w : world) (l : list mmio_step),
    (forall n, completion_pending (ticks pru raised n w) = false) ->
    wait_for_completion pru raised fuel (set_wlog l w) = None.
Proof.
  induction fuel as [|fuel IH]; intros w l Hnever; [reflexivity|].
  cbn [wait_for_completion intr_completion set_wlog].
  pose proof (Hnever 0%nat) as H0.
  change ((0 <? intr_completion w)%nat = false) in H0. rewrite H0. rewrite tick_set_wlog. apply IH.
  intros n. rewrite <- ticks_succ. apply Hnever.
Qed.

Lemma spin_never (fuel : nat) :
  forall (w : world) (l : list mmio_step),
    (forall n, status_is_old (ticks pru raised n w) = false) ->
    spin_until_old pru raised fuel (PRUSS_SHAREDRAM_BASE + STATUS_OFFSET)
                   (set_wlog l w) = None.
Proof.
  induction fuel as [|fuel IH]; intros w l Hnever; [reflexivity|].
  cbn [spin_until_old]. unfold bind, rd8. cbn [io set_wlog].
  pose proof (Hnever 0%nat) as H0.
  change ((ioread8 (io w) (PRUSS_SHAREDRAM_BASE + STATUS_OFFSET) =? OLD_MESSAGE)
          = false) in H0.
  rewrite H0. cbn [negb]. unfold add_log. cbn [wlog set_wlog].
  change (set_wlog ?l1 (set_wlog ?l2 ?x)) with (set_wlog l1 x).
  rewrite tick_set_wlog. apply IH.
  intros n. rewrite <- ticks_succ. apply Hnever.
Qed.

(** X16.  Without its interrupt a write never returns: when no completion
    is pending at entry and the line [hostirq_start + 1] is never raised,
    [dev_write] does not return for any amount of fuel, whatever the
    coprocessor stores in the region and whichever other lines are raised. *)
Theorem dev_write_needs_interrupt
    (gdev : uio_pruss_dev) (w : world) (buffer len offset : Z) :
  attached gdev w -> 0 <= len < 2 ^ 31 ->
  intr_completion w = 0%nat ->
  (forall t, raised t <> Some (hostirq_start gdev + 1)) ->
  forall fuel, dev_write pru raised fuel buffer len offset w = None.
Proof.
  intros Hw Hlen Hdone Hline fuel.
  rewrite (dev_write_prefix pru raised gdev w fuel buffer len offset Hw Hlen).
  unfold bind at 1. rewrite wait_never; [reflexivity|].
  intros n. unfold completion_pending.
  rewrite (ticks_completion gdev n (frame_posted buffer len w)
             (attached_set_io gdev w _ Hw) Hline).
  cbn [frame_posted intr_completion set_io]. now rewrite Hdone.
Qed.

(** [dev_write] once the completion has been taken: what is left to run,
    and the world it runs in. *)
Lemma dev_write_woken
    (gdev : uio_pruss_dev) (w : world) (buffer len offset : Z) (n fuel : nat) :
  attached gdev w -> 0 <= len < 2 ^ 31 ->
  let p := PRUSS_SHAREDRAM_BASE in
  let w1 := frame_posted buffer len w in
  first_after pru raised completion_pending n w1 = true ->
  (n < fuel)%nat ->
  let w3 := rearmed gdev (ticks pru raised n w1) in
  let mode := ioread8 (io w3) (p + 25) in
  dev_write pru raised fuel buffer len offset w =
  ((if mode =? CHAR_M
    then spin_until_old pru raised fuel (p + STATUS_OFFSET)
    else ret tt) ;;; ret len)
    (set_wlog (wlog w ++ [Rd8 (p + 25) (ioread8 (io w) (p + 25))]
               ++ frame_steps buffer len w ++ rearm_steps gdev
               ++ [Rd8 (p + 25) mode]) w3).
Proof.
  intros Hw Hlen p w1 Hn Hfuel w3 mode.
  rewrite (dev_write_prefix pru raised gdev w fuel buffer len offset Hw Hlen).
  fold w1.
  erewrite bind_eval by (apply wait_returns; [exact Hn|exact Hfuel]).
  rewrite bind_wr32, bind_wr32, bind_rd8. unfold add_log.
  world_nf. cbn [io set_completion].
  match goal with
  | |- ?f ?x = ?g ?y => assert (x = y) as ->; [|reflexivity]
  end.
  unfold w3, rearmed, rearm_io, rearm_steps, mode, w3, rearmed, rearm_io.
  cbn [io set_io set_completion].
  rewrite <- !app_assoc. reflexivity.
Qed.

Lemma first_after_here (P : world -> bool) (n : nat) (w : world) :
  first_after pru raised P n w = true -> P (ticks pru raised n w) = true.
Proof. unfold first_after. intros H. now apply andb_prop in H. Qed.

Lemma wait_inv (fuel : nat) :
  forall (w w' : world) (l : list mmio_step),
    wait_for_completion pru raised fuel (set_wlog l w) = Some (tt, w') ->
    exists n, first_after pru raised completion_pending n w = true /\
              (n < fuel)%nat.
Proof.
  induction fuel as [|fuel IH]; intros w w' l H; [discriminate H|].
  cbn [wait_for_completion intr_completion set_wlog] in H.
  destruct (0 <? intr_completion w)%nat eqn:E.
  - exists 0%nat. split; [exact E|lia].
  - rewrite tick_set_wlog in H. destruct (IH _ _ _ H) as (n & Hn & Hlt).
    exists (S n). split; [|lia].
    rewrite first_after_succ. unfold completion_pending at 1.
    now rewrite E, Hn.
Qed.

Lemma spin_inv (fuel : nat) :
  forall (w w' : world) (l : list mmio_step),
    spin_until_old pru raised fuel (PRUSS_SHAREDRAM_BASE + STATUS_OFFSET)
                   (set_wlog l w) = Some (tt, w') ->
    exists k, first_after pru raised status_is_old k w = true /\
              (k < fuel)%nat.
Proof.
  induction fuel as [|fuel IH]; intros w w' l H; [discriminate H|].
  cbn [spin_until_old] in H. unfold bind, rd8 in H. cbn [io set_wlog] in H.
  destruct (ioread8 (io w) (PRUSS_SHAREDRAM_BASE + STATUS_OFFSET)
            =? OLD_MESSAGE) eqn:E; cbn [negb] in H.
  - exists 0%nat. split; [exact E|lia].
  - unfold add_log in H. cbn [wlog set_wlog] in H.
    change (set_wlog ?l1 (set_wlog ?l2 ?x)) with (set_wlog l1 x) in H.
    rewrite tick_set_wlog in H. destruct (IH _ _ _ H) as (k & Hk & Hlt).
    exists (S k). split; [|lia].
    rewrite first_after_succ. unfold status_is_old at 1.
    now rewrite E, Hk.
Qed.

(** X17.  Whenever a write returns, under any environment, it returns the
    length it was given; it has changed neither the lock, the message
    buffer, the caller's memory nor the device binding; time has not gone
    backwards; and the run was the transaction and nothing else.  There are
    tick counts [n] and [k] within the fuel such that the completion was
    first pending [n] ticks after the frame was posted and, when the mode
    byte read after re-arming was ['M'], the status byte first read 0x55 [k]
    ticks later; the world returned is the one the environment reached at
    that point, the write having stored nothing after re-arming; and the
    accesses logged are the posting of the frame, the wake-up and re-arming,
    one read of the mode byte and, only when that read gave ['M'], one read
    of the status byte per tick with the value the region held at that tick,
    the last of them 0x55. *)
Theorem dev_write_returned
    (gdev : uio_pruss_dev) (w w' : world) (buffer len offset r : Z)
    (fuel : nat) :
  attached gdev w -> 0 <= len < 2 ^ 31 ->
  dev_write pru raised fuel buffer len offset w = Some (r, w') ->
  let p := PRUSS_SHAREDRAM_BASE in
  let w1 := frame_posted buffer len w in
  r = len /\
  same_session w w' /\
  (now w <= now w')%nat /\
  exists n k : nat,
    let w3 := rearmed gdev (ticks pru raised n w1) in
    let md := ioread8 (io w3) (p + 25) in
    let polls :=
      if md =? CHAR_M
      then map (fun j => Rd8 (p + 1)
                             (ioread8 (io (ticks pru raised j w3)) (p + 1)))
               (seq 0 (S k))
      else [] in
    (n < fuel)%nat /\ (k < fuel)%nat /\
    first_after pru raised completion_pending n w1 = true /\
    (md = CHAR_M -> first_after pru raised status_is_old k w3 = true) /\
    (md <> CHAR_M -> k = 0%nat) /\
    w' = set_wlog (wlog w ++ [Rd8 (p + 25) (ioread8 (io w) (p + 25))]
                   ++ frame_steps buffer len w ++ rearm_steps gdev
                   ++ [Rd8 (p + 25) md] ++ polls)
                  (if md =? CHAR_M then ticks pru raised k w3 else w3) /\
    (md = CHAR_M -> ioread8 (io w') (p + 1) = 0x55).
Proof.
  intros Hw Hlen H p w1. subst p.
  pose proof H as H0.
  rewrite (dev_write_prefix pru raised gdev w fuel buffer len offset Hw Hlen)
    in H0.
  unfold bind at 1 in H0.
  destruct (wait_for_completion pru raised fuel _) as [[[] w2]|] eqn:Hwait;
    [|discriminate H0].
  apply wait_inv in Hwait as (n & Hn & Hlt). clear H0 w2.
  rewrite (dev_write_woken gdev w buffer len offset n fuel Hw Hlen Hn Hlt) in H.
  fold w1 in H, Hn.
  set (w3 := rearmed gdev (ticks pru raised n w1)) in *.
  set (md := ioread8 (io w3) (PRUSS_SHAREDRAM_BASE + 25)) in *.
  set (l3 := wlog w ++ _) in H.
  assert (same_session w w3 /\ now w3 = (now w + n)%nat) as [Hs3 Hn3].
  { destruct (ticks_keeps n w1) as ((T1 & T2 & T3 & T4 & T5 & T6) & _ & Tn).
    unfold same_session, w3, w1, rearmed, frame_posted in *.
    cbn [_pdev pruchar_mutex message user user_ok pins now set_io
         set_completion] in *.
    repeat split; assumption. }
  destruct (md =? CHAR_M) eqn:Em.
  - unfold bind in H.
    destruct (spin_until_old pru raised fuel _ _) as [[[] w4]|] eqn:Hspin;
      [|discriminate H].
    pose proof Hspin as Hk. apply spin_inv in Hk as (k & Hk & Hklt).
    rewrite (spin_returns pru raised k fuel w3 l3 Hk Hklt) in Hspin.
    injection Hspin as <-. injection H as <- <-.
    destruct (ticks_keeps k w3) as ((T1 & T2 & T3 & T4 & T5 & T6) & _ & Tn).
    destruct Hs3 as (S1 & S2 & S3 & S4 & S5 & S6).
    split; [reflexivity|]. split.
    { unfold same_session.
      cbn [_pdev pruchar_mutex message user user_ok pins set_wlog].
      repeat split; congruence. }
    split; [cbn [now set_wlog]; lia|].
    exists n, k. cbv zeta. fold w3. fold md. rewrite Em.
    split; [exact Hlt|]. split; [exact Hklt|]. split; [exact Hn|].
    split; [intros _; exact Hk|]. split.
    { intros Hne. apply Z.eqb_eq in Em. contradiction. }
    split.
    { f_equal. unfold l3. rewrite <- ?app_assoc. reflexivity. }
    intros _. cbn [io set_wlog].
    apply first_after_here in Hk. unfold status_is_old in Hk.
    now apply Z.eqb_eq in Hk.
  - unfold bind, ret in H. injection H as <- <-.
    split; [reflexivity|]. split.
    { destruct Hs3 as (S1 & S2 & S3 & S4 & S5 & S6). unfold same_session.
      cbn [_pdev pruchar_mutex message user user_ok pins set_wlog].
      repeat split; assumption. }
    split; [cbn [now set_wlog]; lia|].
    exists n, 0%nat. cbv zeta. fold w3. fold md. rewrite Em.
    split; [exact Hlt|]. split; [lia|]. split; [exact Hn|].
    split; [intros Hm; apply Z.eqb_neq in Em; contradiction|].
    split; [reflexivity|]. split; [reflexivity|].
    intros Hm. apply Z.eqb_neq in Em. contradiction.
Qed.

Lemma stale_run
    (gdev : uio_pruss_dev) (w : world) (buffer len offset : Z) (fuel : nat) :
  attached gdev w -> 0 <= len < 2 ^ 31 ->
  (0 < intr_completion w)%nat ->
  let p := PRUSS_SHAREDRAM_BASE in
  let w3 := rearmed gdev (frame_posted buffer len w) in
  ioread8 (io w3) (p + 25) <> CHAR_M ->
  dev_write pru raised (S fuel) buffer len offset w =
  Some (len,
        set_wlog (wlog w ++ [Rd8 (p + 25) (ioread8 (io w) (p + 25))]
                  ++ frame_steps buffer len w ++ rearm_steps gdev
                  ++ [Rd8 (p + 25) (ioread8 (io w3) (p + 25))]) w3).
Proof.
  intros Hw Hlen Hdone p w3 Hmode.
  assert (first_after pru raised completion_pending 0
                      (frame_posted buffer len w) = true) as Hn.
  { rewrite first_after_zero. unfold completion_pending, frame_posted.
    cbn [intr_completion set_io]. now apply Nat.ltb_lt. }
  rewrite (dev_write_woken gdev w buffer len offset 0 (S fuel) Hw Hlen Hn)
    by lia.
  change (ticks pru raised 0 (frame_posted buffer len w))
    with (frame_posted buffer len w).
  fold w3. apply Z.eqb_neq in Hmode. fold p. rewrite Hmode. reflexivity.
Qed.

(** X18.  A completion left pending lets the next write through at once:
    when a completion is pending at entry and the mode byte does not read
    ['M'], [dev_write] returns the length with any fuel above zero, takes
    exactly one completion and finishes before the environment has made a
    single step, so the region holds exactly what the host stored. *)
Theorem dev_write_stale_completion
    (gdev : uio_pruss_dev) (w : world) (buffer len offset : Z) (fuel : nat) :
  attached gdev w -> 0 <= len < 2 ^ 31 ->
  (0 < intr_completion w)%nat ->
  ioread8 (io (rearmed gdev (frame_posted buffer len w)))
          (PRUSS_SHAREDRAM_BASE + 25) <> CHAR_M ->
  exists w',
    dev_write pru raised (S fuel) buffer len offset w = Some (len, w') /\
    now w' = now w /\
    intr_completion w' = pred (intr_completion w) /\
    (forall a, io w' a = rearm_io gdev (frame_io buffer len w) a).
Proof.
  intros Hw Hlen Hdone Hmode.
  rewrite (stale_run gdev w buffer len offset fuel Hw Hlen Hdone Hmode).
  eexists. split; [reflexivity|]. repeat split.
Qed.

Lemma ticks_idle_io (n : nat) (w : world) (a : Z) :
  (forall t, raised t = None) ->
  (forall t m b, pru t m b = m b) ->
  io (ticks pru raised n w) a = io w a.
Proof.
  intros Hirq Hpru. induction n as [|n IH]; [reflexivity|].
  change (ticks pru raised (S n) w)
    with (tick pru raised (ticks pru raised n w)).
  unfold tick at 1. cbn [now _pdev io set_io set_now].
  rewrite Hirq. cbn [io set_io set_now]. now rewrite Hpru.
Qed.

Lemma rearm_io_outside (gdev : uio_pruss_dev) (m : iomem) (a : Z) :
  intc_above_shared_ram gdev ->
  a < PRUSS_SHAREDRAM_BASE + SZ_12K ->
  rearm_io gdev m a = m a.
Proof.
  unfold intc_above_shared_ram, rearm_io, PINTC_HIEISR, PRU_INTC_SECR1_REG.
  intros Habove Ha.
  rewrite !iowrite32_outside; [reflexivity| |];
    unfold in_range;
    match goal with
    | |- (?x <=? a) && _ = false => destruct (Z.leb_spec x a); [lia|reflexivity]
    end.
Qed.

(** X19.  In master mode the host depends on the coprocessor to get out of
    the write: with a completion pending, the mode byte reading ['M'], the
    interrupt controller above the shared RAM, no interrupt raised and a
    coprocessor that stores nothing, [dev_write] never returns, because the
    status byte keeps the 0xff the host itself stored. *)
Theorem dev_write_master_needs_coprocessor
    (gdev : uio_pruss_dev) (w : world) (buffer len offset : Z) :
  attached gdev w -> 0 <= len < 2 ^ 31 ->
  intc_above_shared_ram gdev ->
  (0 < intr_completion w)%nat ->
  ioread8 (io w) (PRUSS_SHAREDRAM_BASE + 25) = CHAR_M ->
  (forall t, raised t = None) ->
  (forall t m b, pru t m b = m b) ->
  forall fuel, dev_write pru raised fuel buffer len offset w = None.
Proof.
  intros Hw Hlen Habove Hdone Hmode Hirq Hpru fuel.
  destruct fuel as [|fuel].
  { rewrite (dev_write_prefix pru raised gdev w 0 buffer len offset Hw Hlen).
    reflexivity. }
  assert (first_after pru raised completion_pending 0
                      (frame_posted buffer len w) = true) as Hn.
  { rewrite first_after_zero. unfold completion_pending, frame_posted.
    cbn [intr_completion set_io]. now apply Nat.ltb_lt. }
  rewrite (dev_write_woken gdev w buffer len offset 0 (S fuel) Hw Hlen Hn)
    by lia.
  change (ticks pru raised 0 (frame_posted buffer len w))
    with (frame_posted buffer len w).
  set (w3 := rearmed gdev (frame_posted buffer len w)).
  destruct (frame_io_contents buffer len w) as (_ & _ & Hst & Hfr); [lia|].
  cbv zeta in Hst, Hfr.
  assert (forall a, a < PRUSS_SHAREDRAM_BASE + SZ_12K ->
                    io w3 a = frame_io buffer len w a) as Hw3.
  { intros a Ha. unfold w3, rearmed, frame_posted. cbn [io set_io set_completion].
    now apply rearm_io_outside. }
  assert (ioread8 (io w3) (PRUSS_SHAREDRAM_BASE + 25) = CHAR_M) as ->.
  { unfold ioread8. rewrite Hw3 by (unfold SZ_12K; lia).
    rewrite Hfr; [exact Hmode|lia|].
    unfold in_range.
    destruct (Z.leb_spec (PRUSS_SHAREDRAM_BASE + 100)
                         (PRUSS_SHAREDRAM_BASE + 25)); [lia|reflexivity]. }
  rewrite Z.eqb_refl. unfold bind.
  rewrite spin_never; [reflexivity|].
  intros n. unfold status_is_old, ioread8.
  rewrite (ticks_idle_io n w3 _ Hirq Hpru).
  rewrite Hw3 by (unfold STATUS_OFFSET, SZ_12K; lia).
  unfold ioread8, STATUS_OFFSET in *. rewrite Hst. reflexivity.
Qed.

(** X20.  What a write posts, the next read returns: after a write that
    found a completion pending in slave mode (so that the environment has
    not run), with the frame inside the shared RAM, a read fills the message
    buffer with a snapshot in which byte 1 is 0xff and the bytes from 0x68
    are the payload. *)
Theorem dev_write_read_back
    (gdev : uio_pruss_dev) (w : world) (buffer len offset : Z) (fuel : nat)
    (rbuf rlen roff : Z) :
  attached gdev w -> message_sized w ->
  0 <= len -> 0x68 + len <= 0x3000 ->
  intc_above_shared_ram gdev ->
  (0 < intr_completion w)%nat ->
  ioread8 (io w) (PRUSS_SHAREDRAM_BASE + 25) <> CHAR_M ->
  exists w',
    dev_write pru raised (S fuel) buffer len offset w = Some (len, w') /\
    nth 1 (message (snd (dev_read rbuf rlen roff w'))) 0 = 0xff /\
    forall i, 0 <= i < len ->
              nth (Z.to_nat (0x68 + i))
                  (message (snd (dev_read rbuf rlen roff w'))) 0
              = u8 (user w (buffer + i)).
Proof.
  intros Hw Hsz Hlen0 Hfit Habove Hdone Hmode.
  assert (0 <= len < 2 ^ 31) as Hlen by lia.
  set (w3 := rearmed gdev (frame_posted buffer len w)).
  destruct (frame_io_contents buffer len w) as (_ & Hpay & Hst & Hfr); [lia|].
  cbv zeta in Hpay, Hst, Hfr.
  assert (forall a, a < PRUSS_SHAREDRAM_BASE + SZ_12K ->
                    ioread8 (io w3) a = ioread8 (frame_io buffer len w) a)
    as Hw3.
  { intros a Ha. unfold ioread8, w3, rearmed, frame_posted.
    cbn [io set_io set_completion]. now rewrite rearm_io_outside. }
  assert (ioread8 (io w3) (PRUSS_SHAREDRAM_BASE + 25) <> CHAR_M) as Hmode3.
  { rewrite Hw3 by (unfold SZ_12K; lia). unfold ioread8 in *.
    rewrite Hfr; [exact Hmode|lia|].
    unfold in_range.
    destruct (Z.leb_spec (PRUSS_SHAREDRAM_BASE + 100)
                         (PRUSS_SHAREDRAM_BASE + 25)); [lia|reflexivity]. }
  rewrite (stale_run gdev w buffer len offset fuel Hw Hlen Hdone Hmode3).
  eexists. split; [reflexivity|].
  match goal with
  | |- context [dev_read rbuf rlen roff ?x] =>
    rewrite (dev_read_message gdev x rbuf rlen roff Hw Hsz)
  end.
  cbn [io set_wlog]. fold w3.
  split.
  - change 1%nat with (Z.to_nat 1).
    rewrite nth_snapshot by (unfold SZ_12K; lia).
    rewrite Hw3 by (unfold SZ_12K; lia). exact Hst.
  - intros i Hi. rewrite nth_snapshot by (unfold SZ_12K; lia).
    rewrite Hw3 by (unfold SZ_12K; lia).
    replace (PRUSS_SHAREDRAM_BASE + (104 + i))
      with (PRUSS_SHAREDRAM_BASE + 104 + i) by lia.
    now apply Hpay.
Qed.

End WriteEnvironment.

Lemma dev_write_needs_interrupt_witness :
  dev_write pru0 raised_never 1000 0x1000 3 0 (world0 master_io) = None.
Proof.
  apply (dev_write_needs_interrupt pru0 raised_never gdev0 (world0 master_io)
           0x1000 3 0 eq_refl).
  - lia.
  - reflexivity.
  - intros t. discriminate.
Defined.

Lemma dev_write_returned_witness :
  match dev_write pru0 raised0 4 0x1000 3 0 (world0 master_io) with
  | Some (r, w') => r = 3 /\ pruchar_mutex w' = false
  | None => False
  end.
Proof.
  destruct (dev_write pru0 raised0 4 0x1000 3 0 (world0 master_io))
    as [[r w']|] eqn:E.
  - destruct (dev_write_returned pru0 raised0 gdev0 (world0 master_io) w'
                0x1000 3 0 r 4 eq_refl) as (Hr & (_ & Hm & _) & _).
    + lia.
    + exact E.
    + split; [exact Hr|exact Hm].
  - vm_compute in E. discriminate E.
Defined.

Lemma dev_write_stale_completion_witness :
  exists w',
    dev_write pru0 raised0 1 0x1000 3 0 (set_completion 1 (world0 ones_io))
    = Some (3, w') /\ now w' = 0%nat /\ intr_completion w' = 0%nat.
Proof.
  destruct (dev_write_stale_completion pru0 raised0 gdev0
              (set_completion 1 (world0 ones_io)) 0x1000 3 0 0 eq_refl)
    as (w' & Hrun & Hnow & Hdone & _).
  - lia.
  - cbn. lia.
  - vm_compute. discriminate.
  - exists w'. repeat split; assumption.
Defined.

Lemma dev_write_master_needs_coprocessor_witness :
  dev_write pru_idle raised_never 1000 0x1000 3 0
            (set_completion 1 (world0 master_io)) = None.
Proof.
  apply (dev_write_master_needs_coprocessor pru_idle raised_never gdev0
           (set_completion 1 (world0 master_io)) 0x1000 3 0 eq_refl).
  - lia.
  - vm_compute. discriminate.
  - cbn. lia.
  - reflexivity.
  - reflexivity.
  - reflexivity.
Defined.

Lemma dev_write_read_back_witness :
  exists w',
    dev_write pru0 raised0 1 0x1000 3 0 (set_completion 1 (world0 ones_io))
    = Some (3, w') /\
    nth 0x68 (message (snd (dev_read 0x2000 0 0 w'))) 0 = 80.
Proof.
  destruct (dev_write_read_back pru0 raised0 gdev0
              (set_completion 1 (world0 ones_io)) 0x1000 3 0 0 0x2000 0 0
              eq_refl (repeat_length 0 (Z.to_nat SZ_12K)))
    as (w' & Hrun & _ & Hpay).
  - lia.
  - lia.
  - vm_compute. discriminate.
  - cbn. lia.
  - vm_compute. discriminate.
  - exists w'. split; [exact Hrun|].
    exact (Hpay 0 ltac:(lia)).
Defined.
